(** * goDiscordChatter: the message delivery pipeline

    A shallow embedding of the reply-delivery code of the bot
    ([internal/ai/client.go] and [internal/bot/formatting.go]) and the
    properties of segmentation, length enforcement and pacing proved
    about it.

    Go strings are byte sequences and [len] counts bytes, so a string is
    a [list ascii] here.  Lengths and indices are natural numbers: every
    [int] the code computes from them is bounded by a string length plus
    a small constant, far from the 64-bit range.  [time.Duration] is an
    [int64] count of nanoseconds and keeps its wrap-around.

    [formatting.go] holds two versions of [sendLongResponse]; the one
    embedded is the later, which segments the reply through the AI
    client.  The provider and the chat gateway are parameters: every
    outcome of an HTTP request and of a send is possible.  The log lines
    of the AI client are left out; those of the bot are events of the
    trace.  The typing-indicator goroutine is recorded where it is
    started and is otherwise an arbitrary action on the gateway. *)

From Stdlib Require Import Ascii String List ZArith Lia Bool Arith PeanoNat.
Import ListNotations.

Set Implicit Arguments.
#[local] Set Warnings "-register-all".

(* ================================================================== *)
(** ** The pieces of Go's [strings] package the program calls *)
(* ================================================================== *)

Module GoStrings.

Definition gostring : Type := list ascii.

(** A string literal. *)
Definition str (s : string) : gostring := list_ascii_of_string s.

(** [len(s)] *)
Definition len (s : gostring) : nat := length s.

(** [s == ""] *)
Definition isEmpty (s : gostring) : bool :=
  match s with [] => true | _ :: _ => false end.

(** [a == b] *)
Definition streq (a b : gostring) : bool :=
  if list_eq_dec ascii_dec a b then true else false.

(** [s[i:j]], for [i <= j <= len(s)] (Go panics otherwise; every slice
    expression of the program is within range). *)
Definition slice (s : gostring) (i j : nat) : gostring :=
  firstn (j - i) (skipn i s).

(** [strings.Repeat] *)
Definition Repeat (s : gostring) (count : nat) : gostring :=
  concat (repeat s count).

(** [strings.HasPrefix] *)
Fixpoint HasPrefix (s prefix : gostring) : bool :=
  match prefix, s with
  | [], _ => true
  | p :: ps, c :: cs => Ascii.eqb c p && HasPrefix cs ps
  | _ :: _, [] => false
  end.

(** [strings.Index]: the position of the first instance of [substr] in
    [s]; [None] stands for Go's [-1]. *)
Fixpoint Index (s substr : gostring) : option nat :=
  if HasPrefix s substr then Some 0
  else match s with
       | [] => None
       | _ :: s' => option_map S (Index s' substr)
       end.

(** [strings.Contains] *)
Definition Contains (s substr : gostring) : bool :=
  match Index s substr with Some _ => true | None => false end.

(** The loop of [strings.genSplit] for a non-empty separator: cut at the
    first instance of [sep], continue with what follows it.  Go bounds
    the number of iterations by [len(s)]; [n] is that bound. *)
Fixpoint genSplit (n : nat) (s sep : gostring) : list gostring :=
  match n with
  | 0 => [s]
  | S n' =>
      match Index s sep with
      | None => [s]
      | Some m => slice s 0 m :: genSplit n' (skipn (m + len sep) s) sep
      end
  end.

(** [strings.Split(s, sep)] with a non-empty [sep] (the program only
    splits on ["\n\n"] and on ["<<<BREAK>>>"]). *)
Definition Split (s sep : gostring) : list gostring :=
  genSplit (len s) s sep.

(** [strings.Join] *)
Fixpoint Join (elems : list gostring) (sep : gostring) : gostring :=
  match elems with
  | [] => []
  | a :: rest =>
      match rest with
      | [] => a
      | _ :: _ => a ++ sep ++ Join rest sep
      end
  end.

(** *** White space

    [strings.TrimSpace] removes leading and trailing white space "as
    defined by Unicode": it decodes UTF-8 from either end and stops at
    the first rune for which [unicode.IsSpace] is false.  Ill-formed
    UTF-8 decodes to U+FFFD, which is not a space, and the decoder
    rejects over-long forms, so a rune is a space exactly when its bytes
    are one of the encodings below. *)

(** ['\t', '\n', '\v', '\f', '\r', ' '] *)
Definition isAsciiSpace (b : ascii) : bool :=
  let n := nat_of_ascii b in
  ((9 <=? n) && (n <=? 13)) || (n =? 32).

(** U+0085 (NEL) is [C2 85], U+00A0 (NBSP) is [C2 A0]. *)
Definition spaceRune2 (b1 b2 : ascii) : bool :=
  (nat_of_ascii b1 =? 194) &&
  ((nat_of_ascii b2 =? 133) || (nat_of_ascii b2 =? 160)).

(** U+1680 is [E1 9A 80]; U+2000..U+200A are [E2 80 80]..[E2 80 8A];
    U+2028, U+2029, U+202F are [E2 80 A8], [E2 80 A9], [E2 80 AF];
    U+205F is [E2 81 9F]; U+3000 is [E3 80 80]. *)
Definition spaceRune3 (b1 b2 b3 : ascii) : bool :=
  let n1 := nat_of_ascii b1 in
  let n2 := nat_of_ascii b2 in
  let n3 := nat_of_ascii b3 in
  ((n1 =? 225) && (n2 =? 154) && (n3 =? 128))
  || ((n1 =? 226) && (n2 =? 128) &&
      (((128 <=? n3) && (n3 <=? 138)) || (n3 =? 168) || (n3 =? 169) || (n3 =? 175)))
  || ((n1 =? 226) && (n2 =? 129) && (n3 =? 159))
  || ((n1 =? 227) && (n2 =? 128) && (n3 =? 128)).

Section Strip.
(** Recognisers of a two-byte and of a three-byte space at the head of
    the bytes still to be read. *)
Variable p2 : ascii -> ascii -> bool.
Variable p3 : ascii -> ascii -> ascii -> bool.

(** Drop white space from the head, rune by rune. *)
Fixpoint stripHead (s : gostring) : gostring :=
  match s with
  | [] => []
  | b1 :: s1 =>
      if isAsciiSpace b1 then stripHead s1
      else match s1 with
           | [] => s
           | b2 :: s2 =>
               if p2 b1 b2 then stripHead s2
               else match s2 with
                    | [] => s
                    | b3 :: s3 => if p3 b1 b2 b3 then stripHead s3 else s
                    end
           end
  end.

(** The head of [s] is a rune that is not a space. *)
Definition headClean (s : gostring) : bool :=
  match s with
  | [] => false
  | b1 :: s1 =>
      negb (isAsciiSpace b1) &&
      match s1 with
      | [] => true
      | b2 :: s2 =>
          negb (p2 b1 b2) &&
          match s2 with
          | [] => true
          | b3 :: _ => negb (p3 b1 b2 b3)
          end
      end
  end.
End Strip.

(** [strings.TrimLeftFunc(s, unicode.IsSpace)] *)
Definition TrimLeftSpace (s : gostring) : gostring :=
  stripHead spaceRune2 spaceRune3 s.

(** [strings.TrimRightFunc(s, unicode.IsSpace)]: the same walk from the
    end, the bytes of a rune met last byte first. *)
Definition spaceRune2Rev (b2 b1 : ascii) : bool := spaceRune2 b1 b2.
Definition spaceRune3Rev (b3 b2 b1 : ascii) : bool := spaceRune3 b1 b2 b3.
Definition TrimRightSpace (s : gostring) : gostring :=
  rev (stripHead spaceRune2Rev spaceRune3Rev (rev s)).

(** [strings.TrimSpace] *)
Definition TrimSpace (s : gostring) : gostring :=
  TrimRightSpace (TrimLeftSpace s).

End GoStrings.

Import GoStrings.

(** Control flow of a Go call: it returns, or it panics and unwinds
    through its callers (the repository never calls [recover]). *)
Inductive Go (A : Type) : Type :=
  | Return (a : A)
  | Panic.
Arguments Return {A} a.
Arguments Panic {A}.

(** The line feed, and the paragraph separator ["\n\n"]. *)
Definition LF : ascii := "010"%char.
Definition paragraphSep : gostring := [LF; LF].

(* ================================================================== *)
(** ** [internal/ai/client.go] *)
(* ================================================================== *)

Module AI.

(** The errors [askGrok] builds: [NewValidationError], the wrapped
    errors of [fmt.Errorf], and [NewAPIError]. *)
Inductive error : Type :=
  | ValidationError (Field Message : gostring)
  | WrappedError (Message : gostring)
  | APIError (Provider : gostring) (StatusCode : Z) (Message : gostring).

(** A JSON value as [encoding/json] decodes it into [interface{}]:
    [nil], [bool], [float64] (never inspected here; an integer stands for
    it), [string], [[]interface{}] and [map[string]interface{}]. *)
Inductive JSON : Type :=
  | JNull
  | JBool (b : bool)
  | JNumber (n : Z)
  | JString (s : gostring)
  | JArray (elems : list JSON)
  | JObject (fields : list (gostring * JSON)).

(** [m[key]] on a [map[string]interface{}]: the [nil] interface when the
    key is absent. *)
Definition mapIndex (m : list (gostring * JSON)) (key : gostring) : JSON :=
  match find (fun kv => streq key (fst kv)) m with
  | Some kv => snd kv
  | None => JNull
  end.

(** The chat-completion request [askGrok] posts. *)
Record Request : Type := {
  Authorization : gostring;
  model : gostring;
  systemContent : gostring;
  userContent : gostring;
  max_tokens : Z
}.

(** What [httpClient.Do] gives back: an error (network failure, timeout,
    cancelled context), or a response with its status code and its body.
    The body is read in one of two ways: [io.ReadAll] gives its bytes,
    [Body]; [json.NewDecoder(resp.Body).Decode] gives [Decoded], the
    first JSON value of the stream.  The decoder stops at the end of
    that value: bytes that follow it are not read, and do not make the
    call fail.  [Decoded] is [None] when the decoder reads no value (the
    stream does not begin with one, or reading it fails). *)
Inductive HTTPResult : Type :=
  | DoError
  | Response (StatusCode : Z) (Body : gostring) (Decoded : option JSON).

Record AIClient : Type := {
  xaiAPIKey : gostring;
  httpClient : Request -> HTTPResult
}.

Definition DefaultGrokModel : gostring := str "grok-3".
Definition DefaultMaxTokens : Z := 200.

(** [json.NewDecoder(resp.Body).Decode(&result)] with
    [result map[string]interface{}], on the value the decoder read: an
    object fills the map, [null] leaves it [nil] (it reads as the empty
    map), a value of another kind, or none, is an error. *)
Definition decodeMap (decoded : option JSON)
    : option (list (gostring * JSON)) :=
  match decoded with
  | Some (JObject fields) => Some fields
  | Some JNull => Some []
  | _ => None
  end.

(** [askGrok]: the requests sent and the outcome of the call.  The two
    type assertions on [choices[0]] and on its ["message"] are of the
    one-result form and panic when they fail. *)
Definition askGrok (c : AIClient) (prompt systemMessage model : gostring)
    (maxTokens : Z) : list Request * Go (gostring * option error) :=
  if isEmpty (xaiAPIKey c) then
    ([], Return ([], Some (ValidationError (str "XAI_API_KEY")
                             (str "environment variable not set"))))
  else
    let grokModel := if isEmpty model then DefaultGrokModel else model in
    let maxTokens := if (maxTokens =? 0)%Z then DefaultMaxTokens else maxTokens in
    let req := {| Authorization := str "Bearer " ++ xaiAPIKey c;
                  model := grokModel;
                  systemContent := systemMessage;
                  userContent := prompt;
                  max_tokens := maxTokens |} in
    ([req],
     match httpClient c req with
     | DoError => Return ([], Some (WrappedError (str "failed to send request")))
     | Response status body decoded =>
         if negb (status =? 200)%Z then
           Return ([], Some (APIError (str "Grok") status body))
         else
           match decodeMap decoded with
           | None => Return ([], Some (WrappedError (str "failed to decode response")))
           | Some result =>
               match mapIndex result (str "choices") with
               | JArray (choice0 :: _) =>
                   match choice0 with
                   | JObject choice =>
                       match mapIndex choice (str "message") with
                       | JObject message =>
                           match mapIndex message (str "content") with
                           | JString content => Return (content, None)
                           | _ => Return ([], Some (APIError (str "Grok") status
                                        (str "invalid response format from Grok")))
                           end
                       | _ => Panic
                       end
                   | _ => Panic
                   end
               | _ => Return ([], Some (APIError (str "Grok") status
                                          (str "no response from Grok")))
               end
           end
     end).

(** One iteration of the paragraph loop of [fallbackMessageBreaks], on
    the pair [(chunks, currentChunk)]. *)
Definition fallbackStep (st : list gostring * gostring) (para : gostring)
    : list gostring * gostring :=
  let (chunks, currentChunk) := st in
  let para := TrimSpace para in
  if isEmpty para then (chunks, currentChunk)
  else if (0 <? len currentChunk) && (800 <? len currentChunk + len para + 2)
  then (chunks ++ [TrimSpace currentChunk], para)
  else if 0 <? len currentChunk
       then (chunks, currentChunk ++ paragraphSep ++ para)
       else (chunks, para).

(** The chunk list after the loop and the closing of the last chunk. *)
Definition fallbackLoop (message : gostring) : list gostring :=
  let paragraphs := Split message paragraphSep in
  let (chunks, currentChunk) := fold_left fallbackStep paragraphs ([], []) in
  if 0 <? len currentChunk then chunks ++ [TrimSpace currentChunk] else chunks.

(** [fallbackMessageBreaks] *)
Definition fallbackMessageBreaks (message : gostring) : list gostring :=
  let chunks := fallbackLoop message in
  if length chunks <=? 1 then [message] else chunks.

(** [parseMessageBreaks] *)
Definition parseMessageBreaks (response originalMessage : gostring)
    : list gostring :=
  let parts :=
    fold_left (fun parts part => parts ++ Split part (str "<<<BREAK>>>"))
              [response] [] in
  let chunks :=
    fold_left (fun chunks chunk =>
                 let chunk := TrimSpace chunk in
                 if negb (isEmpty chunk) && (len chunk <=? 2000)
                 then chunks ++ [chunk] else chunks)
              parts [] in
  if length chunks <=? 1 then fallbackMessageBreaks originalMessage else chunks.

(** The instruction prompt of [SuggestMessageBreaks]. *)
Definition DQ : gostring := ["034"%char].
Definition systemPrompt : gostring :=
  str "You are a message chunking assistant. Your job is to break up messages into natural, conversational chunks 
that feel like how humans text - following up one message with more messages as they flesh out their thoughts.

Rules:
1. Split at natural thought boundaries (paragraphs, topic shifts, etc.)
2. Each chunk should be a complete thought or idea
3. Aim for 3-5 chunks for longer messages
4. Preserve the exact original text - no changes to content
5. Respond ONLY with the chunks separated by the delimiter: <<<BREAK>>>
6. Do not add any explanations or commentary

Example input: " ++ DQ ++
  str "I think pizza is great. It has cheese and sauce. But honestly, the best part is the crust when it's done right. Brooklyn style is my favorite."
  ++ DQ ++ str "

Example output: " ++ DQ ++
  str "I think pizza is great. It has cheese and sauce.<<<BREAK>>>But honestly, the best part is the crust when it's done right.<<<BREAK>>>Brooklyn style is my favorite."
  ++ DQ.

(** [SuggestMessageBreaks]: the provider requests it makes and its
    outcome, the pair [(chunks, err)] when it returns. *)
Definition SuggestMessageBreaks (c : AIClient) (message : gostring)
    : list Request * Go (list gostring * option error) :=
  if len message <=? 500 then ([], Return ([message], None))
  else
    let userPrompt :=
      str "Break this message into natural conversational chunks:"
      ++ paragraphSep ++ message in
    let (calls, r) := askGrok c userPrompt systemPrompt DefaultGrokModel 1000 in
    match r with
    | Panic => (calls, Panic)
    | Return (_, Some err) => (calls, Return (fallbackMessageBreaks message, None))
    | Return (response, None) =>
        (calls, Return (parseMessageBreaks response message, None))
    end.

End AI.

(* ================================================================== *)
(** ** [internal/bot/constants.go] and [internal/bot/formatting.go] *)
(* ================================================================== *)

Module Bot.

Definition MaxDiscordMessageLength : nat := 2000.

(** [time.Duration]: nanoseconds in an [int64]. *)
Definition Duration : Type := Z.
Definition wrap64 (z : Z) : Z := ((z + 2 ^ 63) mod 2 ^ 64 - 2 ^ 63)%Z.
Definition Millisecond : Duration := 1000000%Z.

Definition MinMessageDelay : Duration := (5000 * Millisecond)%Z.
Definition MaxMessageDelay : Duration := (8000 * Millisecond)%Z.
Definition TypingSpeed : Duration := (50 * Millisecond)%Z.

(** [calculateTypingDelay] *)
Definition calculateTypingDelay (chunk : gostring) : Duration :=
  let chunkLength := Z.of_nat (len chunk) in
  let typingTime := Z.quot (wrap64 (chunkLength * TypingSpeed)) 80 in
  let delay := wrap64 (MinMessageDelay + typingTime) in
  if (delay >? MaxMessageDelay)%Z then MaxMessageDelay else delay.

(** [fallbackChunking]: one iteration of its paragraph loop. *)
Definition chunkingStep (st : list gostring * gostring) (para : gostring)
    : list gostring * gostring :=
  let (chunks, currentChunk) := st in
  let para := TrimSpace para in
  if isEmpty para then (chunks, currentChunk)
  else if (0 <? len currentChunk) && (800 <? len currentChunk + len para + 2)
  then (chunks ++ [TrimSpace currentChunk], para)
  else if 0 <? len currentChunk
       then (chunks, currentChunk ++ paragraphSep ++ para)
       else (chunks, para).

(** [fallbackChunking] *)
Definition fallbackChunking (response : gostring) : list gostring :=
  let paragraphs := Split response paragraphSep in
  let (chunks, currentChunk) := fold_left chunkingStep paragraphs ([], []) in
  let chunks :=
    if 0 <? len currentChunk then chunks ++ [TrimSpace currentChunk] else chunks in
  if length chunks <=? 1 then [response] else chunks.

(** The loop of [splitLongChunk], from index [i] with [subChunks]
    collected so far.  [i] grows by 2000 each turn, so [len(chunk)] turns
    are enough; [n] bounds the turns.  ([math.Min] is taken on [float64]
    values, exact below 2^53.) *)
Fixpoint splitLoop (n : nat) (chunk : gostring) (i : nat)
    (subChunks : list gostring) : list gostring :=
  match n with
  | 0 => subChunks
  | S n' =>
      if i <? len chunk then
        let end_ := Nat.min (i + MaxDiscordMessageLength) (len chunk) in
        splitLoop n' chunk (i + MaxDiscordMessageLength)
                  (subChunks ++ [slice chunk i end_])
      else subChunks
  end.

(** [splitLongChunk] *)
Definition splitLongChunk (chunk : gostring) : list gostring :=
  splitLoop (len chunk) chunk 0 [].

(** What the pipeline does to the outside, in the order it does it. *)
Inductive Event : Type :=
  | ChannelMessageSendEv (channelID content : gostring)
  | GoShowTypingIndicator (channelID : gostring) (duration : Duration)
  | SleepEv (d : Duration)
  | LogInfo (msg : gostring)
  | LogError (msg : gostring).

Section Delivery.
(** The chat gateway behind the [discord.Session] interface: a state of
    its own, and a send that may fail on any call. *)
Variable Gateway : Type.
Variable ChannelMessageSend :
  gostring -> gostring -> Gateway -> option gostring * Gateway.
(** What the typing-indicator goroutine, started before a delayed send,
    has done to the gateway by the time of that send. *)
Variable showTypingIndicator : gostring -> Duration -> Gateway -> Gateway.
(** The [ai.Client] interface of the bot. *)
Variable SuggestMessageBreaks :
  gostring -> Go (list gostring * option AI.error).

Record World : Type := {
  gateway : Gateway;
  events : list Event
}.

Definition emit (evs : list Event) (w : World) : World :=
  {| gateway := gateway w; events := events w ++ evs |}.

(** [sendChunkWithDelay] *)
Definition sendChunkWithDelay (channelID chunk : gostring) (addDelay : bool)
    (w : World) : World :=
  let w :=
    if addDelay then
      let delay := calculateTypingDelay chunk in
      let w := emit [LogInfo (str "waiting before next message chunk");
                     GoShowTypingIndicator channelID delay;
                     SleepEv delay] w in
      {| gateway := showTypingIndicator channelID delay (gateway w);
         events := events w |}
    else w in
  let (err, g) := ChannelMessageSend channelID chunk (gateway w) in
  let w := {| gateway := g;
              events := events w ++ [ChannelMessageSendEv channelID chunk] |} in
  match err with
  | Some _ => emit [LogError (str "failed to send message chunk")] w
  | None => w
  end.

(** The inner loop of [sendLongResponse], over the sub-chunks of chunk
    number [i], from sub-chunk number [j]. *)
Fixpoint sendSubChunks (channelID : gostring) (i j : nat)
    (subChunks : list gostring) (w : World) : World :=
  match subChunks with
  | [] => w
  | subChunk :: rest =>
      sendSubChunks channelID i (S j) rest
        (sendChunkWithDelay channelID subChunk ((0 <? i) || (0 <? j)) w)
  end.

(** The outer loop of [sendLongResponse], from chunk number [i]. *)
Fixpoint sendChunks (channelID : gostring) (i : nat)
    (chunks : list gostring) (w : World) : World :=
  match chunks with
  | [] => w
  | chunk :: rest =>
      sendChunks channelID (S i) rest
        (if MaxDiscordMessageLength <? len chunk
         then sendSubChunks channelID i 0 (splitLongChunk chunk) w
         else sendChunkWithDelay channelID chunk (0 <? i) w)
  end.

(** [sendLongResponse].  It has no result; [Return tt] is its normal
    completion. *)
Definition sendLongResponse (channelID response : gostring) (w : World)
    : Go unit * World :=
  match SuggestMessageBreaks response with
  | Panic => (Panic, w)
  | Return (chunks, err) =>
      let (chunks, w) :=
        match err with
        | Some _ =>
            (fallbackChunking response,
             emit [LogError (str "failed to get message breaks, using fallback")] w)
        | None => (chunks, w)
        end in
      (Return tt, sendChunks channelID 0 chunks w)
  end.
End Delivery.

End Bot.

(* ================================================================== *)
(** ** Facts about the string operations *)
(* ================================================================== *)

Module GoStringsFacts.

Lemma HasPrefix_len (prefix s : gostring) :
  HasPrefix s prefix = true -> len prefix <= len s.
Proof.
  revert s; induction prefix as [|p ps IH]; intros [|c cs]; simpl;
    try discriminate; try lia.
  intros H; apply andb_prop in H as [_ H]. apply IH in H. unfold len in *; lia.
Qed.

Lemma Index_bound (substr s : gostring) (m : nat) :
  Index s substr = Some m -> m + len substr <= len s.
Proof.
  revert m; induction s as [|c s IH]; intros m.
  - destruct substr; simpl; [|discriminate]. intros [= <-]. lia.
  - cbn [Index]. destruct (HasPrefix (c :: s) substr) eqn:E.
    + intros [= <-]. apply HasPrefix_len in E. simpl in *. lia.
    + destruct (Index s substr) as [k|]; simpl; [|discriminate].
      intros [= <-]. specialize (IH k eq_refl). unfold len in *. simpl. lia.
Qed.

(** The bound on the turns of [genSplit] is never what ends the loop:
    any larger bound gives the same pieces. *)
Lemma genSplit_enough (sep : gostring) :
  sep <> [] ->
  forall n m s, len s <= n -> len s <= m -> genSplit n s sep = genSplit m s sep.
Proof.
  intros Hsep. induction n as [|n IH]; intros m s Hn Hm.
  - destruct s; [|simpl in Hn; lia].
    destruct m; simpl; [reflexivity|]. destruct sep; [congruence|reflexivity].
  - destruct m as [|m].
    + destruct s; [|simpl in Hm; lia]. simpl.
      destruct sep; [congruence|reflexivity].
    + cbn [genSplit]. destruct (Index s sep) as [k|] eqn:E; [|reflexivity].
      f_equal. apply Index_bound in E.
      assert (0 < len sep) by (destruct sep; [congruence|simpl; lia]).
      apply IH; unfold len in *; rewrite length_skipn; lia.
Qed.

Lemma Split_no_separator (s sep : gostring) :
  Contains s sep = false -> Split s sep = [s].
Proof.
  unfold Contains, Split. intros H.
  destruct (len s); simpl; [reflexivity|].
  destruct (Index s sep); [discriminate|reflexivity].
Qed.

(** *** [Join] *)

Lemma Join_cons (a : gostring) (rest : list gostring) (sep : gostring) :
  rest <> [] -> Join (a :: rest) sep = a ++ sep ++ Join rest sep.
Proof. destruct rest; [congruence|reflexivity]. Qed.

Lemma Join_app (xs ys : list gostring) (sep : gostring) :
  xs <> [] -> ys <> [] ->
  Join (xs ++ ys) sep = Join xs sep ++ sep ++ Join ys sep.
Proof.
  intros Hx Hy. induction xs as [|x xs IH]; [congruence|].
  destruct xs as [|x' xs].
  - simpl app. rewrite Join_cons by assumption. reflexivity.
  - change ((x :: x' :: xs) ++ ys) with (x :: ((x' :: xs) ++ ys)).
    rewrite Join_cons by (simpl; discriminate).
    rewrite IH by discriminate.
    rewrite (@Join_cons x (x' :: xs)) by discriminate.
    now rewrite <- !app_assoc.
Qed.

Lemma Join_snoc (xs : list gostring) (p sep : gostring) :
  xs <> [] -> Join (xs ++ [p]) sep = Join xs sep ++ sep ++ p.
Proof. intros H. rewrite Join_app by (assumption || discriminate). reflexivity. Qed.

(** Joining the joins of non-empty groups is joining their members. *)
Lemma Join_groups (groups : list (list gostring)) (sep : gostring) :
  Forall (fun g => g <> []) groups ->
  Join (map (fun g => Join g sep) groups) sep = Join (concat groups) sep.
Proof.
  induction 1 as [|g gs Hg Hgs IH]; [reflexivity|].
  destruct gs as [|g' gs].
  - simpl. now rewrite app_nil_r.
  - change (Join (Join g sep :: map (fun g => Join g sep) (g' :: gs)) sep
            = Join (g ++ concat (g' :: gs)) sep).
    rewrite Join_cons by discriminate. rewrite IH.
    rewrite Join_app; [reflexivity|assumption|].
    inversion Hgs; subst. destruct g'; [congruence|discriminate].
Qed.

(** *** White space *)

Section StripFacts.
Variable p2 : ascii -> ascii -> bool.
Variable p3 : ascii -> ascii -> ascii -> bool.

Lemma stripHead_suffix (s : gostring) :
  exists pre, s = pre ++ stripHead p2 p3 s.
Proof.
  remember (length s) as n eqn:Hn.
  revert s Hn. induction n as [n IH] using lt_wf_ind. intros s Hn.
  destruct s as [|b1 s1]; [exists []; reflexivity|]. simpl.
  destruct (isAsciiSpace b1).
  { destruct (IH (length s1)) with (s := s1) as [pre E];
      [subst; simpl; lia|reflexivity|].
    exists (b1 :: pre). simpl. now rewrite <- E. }
  destruct s1 as [|b2 s2]; [exists []; reflexivity|].
  destruct (p2 b1 b2).
  { destruct (IH (length s2)) with (s := s2) as [pre E];
      [subst; simpl; lia|reflexivity|].
    exists (b1 :: b2 :: pre). simpl. now rewrite <- E. }
  destruct s2 as [|b3 s3]; [exists []; reflexivity|].
  destruct (p3 b1 b2 b3); [|exists []; reflexivity].
  destruct (IH (length s3)) with (s := s3) as [pre E];
    [subst; simpl; lia|reflexivity|].
  exists (b1 :: b2 :: b3 :: pre). simpl. now rewrite <- E.
Qed.

Lemma stripHead_clean (s : gostring) :
  stripHead p2 p3 s = [] \/ headClean p2 p3 (stripHead p2 p3 s) = true.
Proof.
  remember (length s) as n eqn:Hn.
  revert s Hn. induction n as [n IH] using lt_wf_ind. intros s Hn.
  destruct s as [|b1 s1]; [left; reflexivity|]. simpl.
  destruct (isAsciiSpace b1) eqn:E1.
  { apply (IH (length s1)); [subst; simpl; lia|reflexivity]. }
  destruct s1 as [|b2 s2]; [right; simpl; now rewrite E1|].
  destruct (p2 b1 b2) eqn:E2.
  { apply (IH (length s2)); [subst; simpl; lia|reflexivity]. }
  destruct s2 as [|b3 s3]; [right; simpl; now rewrite E1, E2|].
  destruct (p3 b1 b2 b3) eqn:E3.
  { apply (IH (length s3)); [subst; simpl; lia|reflexivity]. }
  right; simpl; now rewrite E1, E2, E3.
Qed.

Lemma headClean_stripHead (s : gostring) :
  headClean p2 p3 s = true -> stripHead p2 p3 s = s.
Proof.
  destruct s as [|b1 [|b2 [|b3 s3]]]; simpl; try discriminate;
    destruct (isAsciiSpace b1); simpl; try discriminate; try reflexivity;
    destruct (p2 b1 b2); simpl; try discriminate; try reflexivity;
    destruct (p3 b1 b2 b3); simpl; try discriminate; reflexivity.
Qed.

Lemma headClean_prefix (a b : gostring) :
  a <> [] -> headClean p2 p3 (a ++ b) = true -> headClean p2 p3 a = true.
Proof.
  intros Ha. destruct a as [|b1 [|b2 [|b3 a3]]]; [congruence| | |]; simpl.
  - destruct (isAsciiSpace b1); [discriminate|reflexivity].
  - destruct (isAsciiSpace b1); [discriminate|]. simpl.
    destruct b as [|c b]; simpl; destruct (p2 b1 b2); simpl; congruence.
  - trivial.
Qed.

(** A byte that is no part of a multi-byte space after its first byte. *)
Definition inert (c : ascii) : Prop :=
  (forall b1, p2 b1 c = false) /\
  (forall b1 b3, p3 b1 c b3 = false) /\
  (forall b1 b2, p3 b1 b2 c = false).

Lemma headClean_app_inert (a y : gostring) (c : ascii) :
  inert c -> headClean p2 p3 a = true -> headClean p2 p3 (a ++ c :: y) = true.
Proof.
  intros (I2 & I3 & I3') H.
  destruct a as [|b1 [|b2 [|b3 a3]]]; [discriminate| | |]; simpl in *.
  - destruct (isAsciiSpace b1); [discriminate|]. simpl. rewrite I2. simpl.
    destruct y; [reflexivity|]. now rewrite I3.
  - destruct (isAsciiSpace b1); [discriminate|]. simpl in *.
    destruct (p2 b1 b2); [discriminate|]. simpl. now rewrite I3'.
  - exact H.
Qed.
End StripFacts.

(** [s] is not empty and neither begins nor ends with white space. *)
Definition Trimmed (s : gostring) : Prop :=
  headClean spaceRune2 spaceRune3 s = true /\
  headClean spaceRune2Rev spaceRune3Rev (rev s) = true.

Lemma Trimmed_nonempty (s : gostring) : Trimmed s -> s <> [].
Proof. intros [H _] ->. discriminate. Qed.

Lemma Trimmed_TrimSpace (s : gostring) : Trimmed s -> TrimSpace s = s.
Proof.
  intros [HL HR]. unfold TrimSpace, TrimLeftSpace, TrimRightSpace.
  rewrite (headClean_stripHead _ _ _ HL), (headClean_stripHead _ _ _ HR).
  apply rev_involutive.
Qed.

Lemma TrimSpace_Trimmed (s : gostring) :
  TrimSpace s = [] \/ Trimmed (TrimSpace s).
Proof.
  unfold TrimSpace, TrimRightSpace, TrimLeftSpace.
  destruct (stripHead_clean spaceRune2 spaceRune3 s) as [E|HL].
  { left. rewrite E. reflexivity. }
  remember (stripHead spaceRune2 spaceRune3 s) as t eqn:Et. clear Et s.
  destruct (stripHead_clean spaceRune2Rev spaceRune3Rev (rev t)) as [E|HR].
  { left. rewrite E. reflexivity. }
  destruct (stripHead_suffix spaceRune2Rev spaceRune3Rev (rev t)) as [pre E].
  remember (stripHead spaceRune2Rev spaceRune3Rev (rev t)) as r eqn:Er. clear Er.
  right. split; [|now rewrite rev_involutive].
  apply (f_equal (@rev ascii)) in E.
  rewrite rev_involutive, rev_app_distr in E.
  apply headClean_prefix with (b := rev pre); [|now rewrite <- E].
  intros Hr. apply (f_equal (@rev ascii)) in Hr. rewrite rev_involutive in Hr.
  rewrite Hr in HR. discriminate.
Qed.

Lemma TrimSpace_length (s : gostring) : len (TrimSpace s) <= len s.
Proof.
  unfold TrimSpace, TrimRightSpace, TrimLeftSpace, len.
  destruct (stripHead_suffix spaceRune2 spaceRune3 s) as [pre E].
  set (t := stripHead spaceRune2 spaceRune3 s) in *.
  destruct (stripHead_suffix spaceRune2Rev spaceRune3Rev (rev t)) as [pre' E'].
  set (r := stripHead spaceRune2Rev spaceRune3Rev (rev t)) in *.
  apply (f_equal (@length ascii)) in E, E'.
  rewrite length_app in E, E'. rewrite length_rev in *. lia.
Qed.

Lemma LF_inert : inert spaceRune2 spaceRune3 LF.
Proof.
  unfold inert, spaceRune2, spaceRune3.
  change (nat_of_ascii LF) with 10. cbn [Nat.eqb Nat.leb].
  repeat split; intros;
    rewrite ?andb_false_r, ?andb_false_l, ?orb_false_r; reflexivity.
Qed.

Lemma LF_inert_rev : inert spaceRune2Rev spaceRune3Rev LF.
Proof.
  unfold inert, spaceRune2Rev, spaceRune3Rev, spaceRune2, spaceRune3.
  change (nat_of_ascii LF) with 10. cbn [Nat.eqb Nat.leb].
  repeat split; intros;
    rewrite ?andb_false_r, ?andb_false_l, ?orb_false_r; reflexivity.
Qed.

(** Two trimmed strings joined by the paragraph separator are trimmed. *)
Lemma Trimmed_join (a b : gostring) :
  Trimmed a -> Trimmed b -> Trimmed (a ++ paragraphSep ++ b).
Proof.
  intros [HaL _] [_ HbR]. split.
  - apply headClean_app_inert; [apply LF_inert|assumption].
  - unfold paragraphSep. rewrite rev_app_distr. simpl rev.
    rewrite <- !app_assoc. simpl.
    apply headClean_app_inert; [apply LF_inert_rev|assumption].
Qed.

Example TrimSpace_ascii :
  TrimSpace ([LF] ++ str "  two words " ++ [LF; LF]) = str "two words".
Proof. reflexivity. Qed.

(** U+00A0 and U+2003 are trimmed as runes; a lone byte [A0] is
    ill-formed UTF-8 and stays. *)
Example TrimSpace_unicode :
  TrimSpace (["194"; "160"] ++ str "x" ++ ["226"; "128"; "131"; "160"])%char
  = (str "x" ++ ["226"; "128"; "131"; "160"])%char.
Proof. reflexivity. Qed.

Example Split_trailing_separator :
  Split (str "A<<<BREAK>>>B<<<BREAK>>>") (str "<<<BREAK>>>")
  = [str "A"; str "B"; []].
Proof. reflexivity. Qed.

Lemma Trimmed_Join (ps : list gostring) :
  ps <> [] -> Forall Trimmed ps -> Trimmed (Join ps paragraphSep).
Proof.
  intros Hne H. induction H as [|p ps Hp Hps IH]; [congruence|].
  destruct ps as [|p' ps]; [exact Hp|].
  rewrite Join_cons by discriminate.
  apply Trimmed_join; [assumption|apply IH; discriminate].
Qed.

End GoStringsFacts.

(* ================================================================== *)
(** ** The fallback splitter *)
(* ================================================================== *)

Module FallbackFacts.
Import GoStringsFacts.

(** The paragraphs of a reply: the pieces between paragraph separators,
    each trimmed, the empty ones left out. *)
Definition paragraphsOf (message : gostring) : list gostring :=
  filter (fun p => negb (isEmpty p))
         (map TrimSpace (Split message paragraphSep)).

(** The greedy grouping the loop performs, on the paragraphs themselves:
    the groups already closed and the group being filled. *)
Definition groupStep (st : list (list gostring) * list gostring)
    (para : gostring) : list (list gostring) * list gostring :=
  let (groups, current) := st in
  match current with
  | [] => (groups, [para])
  | _ :: _ =>
      if 800 <? len (Join current paragraphSep) + len para + 2
      then (groups ++ [current], [para])
      else (groups, current ++ [para])
  end.

Definition closeGroups (st : list (list gostring) * list gostring)
    : list (list gostring) :=
  let (groups, current) := st in
  match current with
  | [] => groups
  | _ :: _ => groups ++ [current]
  end.

Definition groupsOf (paragraphs : list gostring) : list (list gostring) :=
  closeGroups (fold_left groupStep paragraphs ([], [])).

(** A group of more than one paragraph joins to at most 800 bytes. *)
Definition withinTarget (group : list gostring) : Prop :=
  2 <= length group -> len (Join group paragraphSep) <= 800.

(** The body of the loop once the paragraph is trimmed and not empty. *)
Definition appendStep (st : list gostring * gostring) (para : gostring)
    : list gostring * gostring :=
  let (chunks, currentChunk) := st in
  if (0 <? len currentChunk) && (800 <? len currentChunk + len para + 2)
  then (chunks ++ [TrimSpace currentChunk], para)
  else if 0 <? len currentChunk
       then (chunks, currentChunk ++ paragraphSep ++ para)
       else (chunks, para).

Lemma fallbackStep_appendStep (st : list gostring * gostring) (para : gostring) :
  AI.fallbackStep st para =
  if isEmpty (TrimSpace para) then st else appendStep st (TrimSpace para).
Proof. destruct st; reflexivity. Qed.

Lemma fold_fallbackStep (raw : list gostring) :
  forall st,
    fold_left AI.fallbackStep raw st =
    fold_left appendStep
      (filter (fun p => negb (isEmpty p)) (map TrimSpace raw)) st.
Proof.
  induction raw as [|p raw IH]; intros st; [reflexivity|].
  cbn [fold_left map filter]. rewrite fallbackStep_appendStep.
  destruct (isEmpty (TrimSpace p)); simpl; apply IH.
Qed.

Lemma paragraphsOf_Trimmed (message : gostring) :
  Forall Trimmed (paragraphsOf message).
Proof.
  unfold paragraphsOf. apply Forall_forall. intros p Hp.
  apply filter_In in Hp as [Hin Hne]. apply in_map_iff in Hin as (q & <- & _).
  destruct (TrimSpace_Trimmed q) as [E|H]; [|exact H].
  rewrite E in Hne. discriminate.
Qed.

(** The loop state is the image of the grouping state. *)
Definition Simulates (st : list gostring * gostring)
    (gst : list (list gostring) * list gostring) : Prop :=
  fst st = map (fun g => Join g paragraphSep) (fst gst) /\
  snd st = Join (snd gst) paragraphSep /\
  Forall Trimmed (snd gst).

Lemma Simulates_current (st : list gostring * gostring)
    (gst : list (list gostring) * list gostring) :
  Simulates st gst ->
  (snd gst = [] -> snd st = []) /\
  (snd gst <> [] -> Trimmed (snd st)).
Proof.
  intros (_ & Hc & Ht). split.
  - intros E. rewrite Hc, E. reflexivity.
  - intros Hne. rewrite Hc. now apply Trimmed_Join.
Qed.

Lemma appendStep_simulates (st : list gostring * gostring)
    (gst : list (list gostring) * list gostring) (para : gostring) :
  Trimmed para -> Simulates st gst ->
  Simulates (appendStep st para) (groupStep gst para).
Proof.
  intros Hp H. pose proof (Simulates_current H) as (Hnil & Hcons).
  destruct H as (Hch & Hcur & Ht).
  destruct st as [chunks cur], gst as [groups current]; cbn [fst snd] in *.
  unfold appendStep, groupStep, Simulates.
  destruct current as [|q current].
  - rewrite (Hnil eq_refl). cbn [len length Nat.ltb Nat.leb andb fst snd].
    split; [exact Hch|split; [reflexivity|now constructor]].
  - assert (Hq : Trimmed cur) by (apply Hcons; discriminate).
    pose proof (Trimmed_nonempty Hq) as Hne.
    assert (E : (0 <? len cur) = true) by (destruct cur; [congruence|reflexivity]).
    rewrite E. cbn [andb]. rewrite <- Hcur.
    destruct (800 <? len cur + len para + 2); cbn [fst snd].
    + split; [|split; [reflexivity|now constructor]].
      rewrite map_app. cbn [map].
      rewrite (Trimmed_TrimSpace Hq), Hch, Hcur. reflexivity.
    + split; [exact Hch|split].
      * rewrite Hcur. symmetry. apply Join_snoc. discriminate.
      * apply Forall_app. split; [exact Ht|now constructor].
Qed.

Lemma fold_simulates (ps : list gostring) :
  Forall Trimmed ps ->
  forall st gst, Simulates st gst ->
    Simulates (fold_left appendStep ps st) (fold_left groupStep ps gst).
Proof.
  induction 1 as [|p ps Hp Hps IH]; intros st gst H; [exact H|].
  simpl. apply IH. now apply appendStep_simulates.
Qed.

(** What the loop closes is the join of each group of paragraphs. *)
Lemma fallbackLoop_groups (message : gostring) :
  AI.fallbackLoop message =
  map (fun g => Join g paragraphSep) (groupsOf (paragraphsOf message)).
Proof.
  unfold AI.fallbackLoop, groupsOf. rewrite fold_fallbackStep.
  fold (paragraphsOf message).
  assert (H : Simulates (fold_left appendStep (paragraphsOf message) ([], []))
                        (fold_left groupStep (paragraphsOf message) ([], []))).
  { apply fold_simulates; [apply paragraphsOf_Trimmed|].
    split; [reflexivity|split; [reflexivity|constructor]]. }
  pose proof (Simulates_current H) as (Hnil & Hcons).
  destruct H as (Hch & Hcur & _).
  destruct (fold_left appendStep _ _) as [chunks cur].
  destruct (fold_left groupStep _ _) as [groups current].
  cbn [fst snd closeGroups] in *.
  destruct current as [|q current].
  - rewrite (Hnil eq_refl). exact Hch.
  - assert (Hq : Trimmed cur) by (apply Hcons; discriminate).
    pose proof (Trimmed_nonempty Hq) as Hne.
    assert (E : (0 <? len cur) = true) by (destruct cur; [congruence|reflexivity]).
    rewrite E, map_app, (Trimmed_TrimSpace Hq), Hch, Hcur. reflexivity.
Qed.

(** The grouping keeps the paragraphs in order, closes no empty group,
    and fills a group past one paragraph only within the target. *)
Definition GroupsOk (st : list (list gostring) * list gostring)
    (processed : list gostring) : Prop :=
  concat (fst st) ++ snd st = processed /\
  Forall (fun g => g <> [] /\ withinTarget g) (fst st) /\
  withinTarget (snd st).

Lemma groupStep_ok (st : list (list gostring) * list gostring)
    (processed : list gostring) (para : gostring) :
  GroupsOk st processed -> GroupsOk (groupStep st para) (processed ++ [para]).
Proof.
  destruct st as [groups current]. intros (Hc & Hg & Hw).
  unfold GroupsOk, groupStep. cbn [fst snd] in *.
  destruct current as [|q current].
  - cbn [fst snd]. split; [|split; [exact Hg|]].
    + now rewrite <- Hc, app_nil_r.
    + intros H. simpl in H. lia.
  - destruct (800 <? len (Join (q :: current) paragraphSep) + len para + 2) eqn:E;
      cbn [fst snd].
    + split; [|split].
      * rewrite concat_app. cbn [concat]. rewrite app_nil_r, <- Hc.
        now rewrite <- app_assoc.
      * apply Forall_app. split; [exact Hg|]. constructor; [|constructor].
        split; [discriminate|exact Hw].
      * intros H. simpl in H. lia.
    + split; [|split; [exact Hg|]].
      * rewrite <- Hc. now rewrite app_assoc.
      * intros _. apply Nat.ltb_ge in E.
        rewrite Join_snoc by discriminate.
        unfold len in *. rewrite !length_app.
        change (length paragraphSep) with 2. lia.
Qed.

Lemma fold_groupStep_ok (ps : list gostring) :
  forall st processed, GroupsOk st processed ->
    GroupsOk (fold_left groupStep ps st) (processed ++ ps).
Proof.
  induction ps as [|p ps IH]; intros st processed H.
  - now rewrite app_nil_r.
  - simpl. replace (processed ++ p :: ps) with ((processed ++ [p]) ++ ps)
      by now rewrite <- app_assoc.
    apply IH. now apply groupStep_ok.
Qed.

Lemma groupsOf_ok (ps : list gostring) :
  concat (groupsOf ps) = ps /\
  Forall (fun g => g <> [] /\ withinTarget g) (groupsOf ps).
Proof.
  unfold groupsOf.
  assert (H : GroupsOk (fold_left groupStep ps ([], [])) ([] ++ ps)).
  { apply fold_groupStep_ok. split; [reflexivity|split; [constructor|]].
    intros H. simpl in H. lia. }
  destruct (fold_left groupStep ps ([], [])) as [groups current].
  destruct H as (Hc & Hg & Hw). cbn [fst snd closeGroups app] in *.
  destruct current as [|q current].
  - rewrite app_nil_r in Hc. auto.
  - split.
    + rewrite concat_app. cbn [concat]. now rewrite app_nil_r.
    + apply Forall_app. split; [exact Hg|]. constructor; [|constructor].
      split; [discriminate|exact Hw].
Qed.

(** [fallbackChunking] of the bot is [fallbackMessageBreaks] of the AI
    client. *)
Lemma fallbackChunking_fallbackMessageBreaks (response : gostring) :
  Bot.fallbackChunking response = AI.fallbackMessageBreaks response.
Proof.
  unfold Bot.fallbackChunking, AI.fallbackMessageBreaks, AI.fallbackLoop.
  change Bot.chunkingStep with AI.fallbackStep.
  destruct (fold_left AI.fallbackStep _ _). reflexivity.
Qed.

(** C2: the fallback splitter (both copies of it) either returns the
    reply itself as its only chunk, or returns two or more chunks that
    are the joins of consecutive groups of the reply's trimmed non-empty
    paragraphs, in their order; joining these chunks with the paragraph
    separator is then joining the paragraphs with it.  In particular a
    result of one chunk is the original reply. *)
Theorem fallback_reproduces_reply (message : gostring) :
  Bot.fallbackChunking message = AI.fallbackMessageBreaks message /\
  (length (AI.fallbackMessageBreaks message) = 1 ->
   AI.fallbackMessageBreaks message = [message]) /\
  (AI.fallbackMessageBreaks message = [message] \/
   2 <= length (AI.fallbackMessageBreaks message) /\
   (exists groups : list (list gostring),
      concat groups = paragraphsOf message /\
      Forall (fun g => g <> []) groups /\
      AI.fallbackMessageBreaks message =
        map (fun g => Join g paragraphSep) groups) /\
   Join (AI.fallbackMessageBreaks message) paragraphSep =
     Join (paragraphsOf message) paragraphSep).
Proof.
  split; [apply fallbackChunking_fallbackMessageBreaks|].
  unfold AI.fallbackMessageBreaks.
  destruct (length (AI.fallbackLoop message) <=? 1) eqn:E.
  - split; [reflexivity|left; reflexivity].
  - apply Nat.leb_gt in E. split; [intros H; lia|right].
    destruct (groupsOf_ok (paragraphsOf message)) as [Hc Hg].
    assert (Hne : Forall (fun g : list gostring => g <> [])
                         (groupsOf (paragraphsOf message))).
    { eapply Forall_impl; [|exact Hg]. now intros g [H _]. }
    split; [lia|split].
    + exists (groupsOf (paragraphsOf message)).
      split; [exact Hc|split; [exact Hne|apply fallbackLoop_groups]].
    + rewrite fallbackLoop_groups, Join_groups by exact Hne. now rewrite Hc.
Qed.

(** C9: on a string with no paragraph separator in it the fallback
    splitter returns that very string as its only chunk. *)
Theorem fallback_without_separator (s : gostring) :
  Contains s paragraphSep = false ->
  AI.fallbackMessageBreaks s = [s] /\ Bot.fallbackChunking s = [s].
Proof.
  intros H. rewrite fallbackChunking_fallbackMessageBreaks.
  assert (E : AI.fallbackMessageBreaks s = [s]); [|now rewrite E].
  unfold AI.fallbackMessageBreaks, AI.fallbackLoop.
  rewrite (Split_no_separator _ _ H). cbn [fold_left AI.fallbackStep].
  destruct (isEmpty (TrimSpace s)); [reflexivity|].
  cbn [len length Nat.ltb Nat.leb andb].
  destruct (TrimSpace s); reflexivity.
Qed.

Lemma fallback_without_separator_witness :
  AI.fallbackMessageBreaks (str "  One paragraph, kept as it is. ")
    = [str "  One paragraph, kept as it is. "] /\
  Bot.fallbackChunking (str "  One paragraph, kept as it is. ")
    = [str "  One paragraph, kept as it is. "].
Proof.
  apply (@fallback_without_separator (str "  One paragraph, kept as it is. ")).
  reflexivity.
Defined.

(** Three short paragraphs stay one chunk, the reply itself. *)
Example fallback_short_paragraphs :
  AI.fallbackMessageBreaks
    (str "Pizza is great." ++ paragraphSep ++ str "The crust matters most."
     ++ paragraphSep ++ str "Brooklyn style wins.")
  = [str "Pizza is great." ++ paragraphSep ++ str "The crust matters most."
     ++ paragraphSep ++ str "Brooklyn style wins."].
Proof. vm_compute. reflexivity. Qed.

(** Paragraphs of 700, 100 and 2 bytes: the second does not fit with the
    first, the third fits with the second. *)
Example fallback_splits_at_paragraphs :
  AI.fallbackMessageBreaks
    (Repeat (str "a") 700 ++ paragraphSep ++ Repeat (str "b") 100
     ++ [LF; LF; LF] ++ str "cc ")
  = [Repeat (str "a") 700;
     Repeat (str "b") 100 ++ paragraphSep ++ str "cc"].
Proof. vm_compute. reflexivity. Qed.

(** A reply of 802 bytes: ["a"], four hundred paragraph separators,
    ["b"]. *)
Definition sparseReply : gostring :=
  str "a" ++ Repeat paragraphSep 400 ++ str "b".

(** C10, as stated, fails: the splitter returns [sparseReply] whole, a
    chunk of 802 bytes that holds the two paragraphs ["a"] and ["b"],
    neither of them over the target. *)
Lemma fallback_chunk_over_target :
  AI.fallbackMessageBreaks sparseReply = [sparseReply] /\
  paragraphsOf sparseReply = [str "a"; str "b"] /\
  len sparseReply = 802 /\
  ~ (forall chunk, In chunk (AI.fallbackMessageBreaks sparseReply) ->
       2 <= length (paragraphsOf chunk) -> len chunk <= 800).
Proof.
  assert (E1 : AI.fallbackMessageBreaks sparseReply = [sparseReply])
    by (vm_compute; reflexivity).
  assert (E2 : paragraphsOf sparseReply = [str "a"; str "b"])
    by (vm_compute; reflexivity).
  assert (E3 : len sparseReply = 802) by (vm_compute; reflexivity).
  repeat split; try assumption.
  intros H. specialize (H sparseReply).
  rewrite E1, E2, E3 in H. specialize (H (or_introl eq_refl)). simpl in H. lia.
Qed.

(** C10, amended: the chunks the greedy loop closes are the joins of
    consecutive non-empty groups of the reply's paragraphs, and a group
    of more than one paragraph joins to at most 800 bytes.  These are the
    chunks returned when there are two or more of them; otherwise the
    reply itself is returned, whatever its length. *)
Theorem fallback_groups_within_target (message : gostring) :
  exists groups : list (list gostring),
    concat groups = paragraphsOf message /\
    AI.fallbackLoop message = map (fun g => Join g paragraphSep) groups /\
    Forall (fun g => g <> [] /\
                     (2 <= length g -> len (Join g paragraphSep) <= 800))
           groups /\
    (2 <= length groups ->
     AI.fallbackMessageBreaks message = map (fun g => Join g paragraphSep) groups /\
     Bot.fallbackChunking message = map (fun g => Join g paragraphSep) groups) /\
    (length groups <= 1 ->
     AI.fallbackMessageBreaks message = [message] /\
     Bot.fallbackChunking message = [message]).
Proof.
  exists (groupsOf (paragraphsOf message)).
  destruct (groupsOf_ok (paragraphsOf message)) as [Hc Hg].
  split; [exact Hc|split; [apply fallbackLoop_groups|split; [exact Hg|]]].
  rewrite fallbackChunking_fallbackMessageBreaks.
  unfold AI.fallbackMessageBreaks. rewrite fallbackLoop_groups, length_map.
  split; intros H.
  - apply Nat.leb_gt in H. rewrite H. split; reflexivity.
  - apply Nat.leb_le in H. rewrite H. split; reflexivity.
Qed.

End FallbackFacts.

(* ================================================================== *)
(** ** AI-assisted segmentation *)
(* ================================================================== *)

Module SegmentationFacts.
Import FallbackFacts.

(** What the specification says of the provider's response: split on the
    delimiter, trim every piece, drop the empty and the over-long ones,
    and fall back when at most one piece is left. *)
Definition parseMessageBreaks_spec (response originalMessage : gostring)
    : list gostring :=
  let pieces :=
    filter (fun piece => negb (isEmpty piece) && (len piece <=? 2000))
           (map TrimSpace (Split response (str "<<<BREAK>>>"))) in
  if length pieces <=? 1 then AI.fallbackMessageBreaks originalMessage
  else pieces.

Lemma fold_left_keep (A B : Type) (g : A -> B) (keep : B -> bool) (l : list A) :
  forall acc,
    fold_left (fun acc x => let y := g x in
                            if keep y then acc ++ [y] else acc) l acc
    = acc ++ filter keep (map g l).
Proof.
  induction l as [|x l IH]; intros acc; cbn [fold_left map filter].
  - now rewrite app_nil_r.
  - rewrite IH. destruct (keep (g x)); [|reflexivity].
    now rewrite <- app_assoc.
Qed.

(** C5: [parseMessageBreaks] is the function the specification
    describes, and on ["A<<<BREAK>>>B<<<BREAK>>>"] it returns the two
    chunks ["A"] and ["B"]. *)
Theorem parseMessageBreaks_refines (response originalMessage : gostring) :
  AI.parseMessageBreaks response originalMessage
    = parseMessageBreaks_spec response originalMessage /\
  AI.parseMessageBreaks (str "A<<<BREAK>>>B<<<BREAK>>>") originalMessage
    = [str "A"; str "B"].
Proof.
  split; [|reflexivity].
  unfold AI.parseMessageBreaks, parseMessageBreaks_spec.
  cbn [fold_left app].
  rewrite (fold_left_keep TrimSpace
             (fun piece => negb (isEmpty piece) && (len piece <=? 2000))).
  reflexivity.
Qed.

(** C4: a reply of at most 500 bytes comes back as its own single chunk,
    with a nil error and without any request to the provider. *)
Theorem SuggestMessageBreaks_short (c : AI.AIClient) (R : gostring) :
  len R <= 500 -> AI.SuggestMessageBreaks c R = ([], Return ([R], None)).
Proof.
  intros H. unfold AI.SuggestMessageBreaks.
  apply Nat.leb_le in H. now rewrite H.
Qed.

(** A client whose every request meets the same fate. *)
Definition clientAnswering (r : AI.HTTPResult) : AI.AIClient :=
  {| AI.xaiAPIKey := str "xai-key"; AI.httpClient := fun _ => r |}.

Lemma SuggestMessageBreaks_short_witness :
  AI.SuggestMessageBreaks (clientAnswering AI.DoError) (str "Hello, world!")
    = ([], Return ([str "Hello, world!"], None)).
Proof.
  apply (@SuggestMessageBreaks_short (clientAnswering AI.DoError)
           (str "Hello, world!")).
  simpl. lia.
Defined.

(** When [SuggestMessageBreaks] returns, its error is nil. *)
Lemma SuggestMessageBreaks_nil_error (c : AI.AIClient) (message : gostring)
    (chunks : list gostring) (err : option AI.error) :
  snd (AI.SuggestMessageBreaks c message) = Return (chunks, err) -> err = None.
Proof.
  unfold AI.SuggestMessageBreaks.
  destruct (len message <=? 500); [now intros [= _ <-]|].
  destruct (AI.askGrok _ _ _ _ _) as [calls [[response [e|]]|]]; simpl;
    try discriminate; now intros [= _ <-].
Qed.

(** When the call to the provider returns an error, the chunks are those
    of the fallback splitter on the original message. *)
Lemma SuggestMessageBreaks_falls_back (c : AI.AIClient) (message : gostring)
    (calls : list AI.Request) (response : gostring) (e : AI.error) :
  500 < len message ->
  AI.askGrok c (str "Break this message into natural conversational chunks:"
                ++ paragraphSep ++ message)
             AI.systemPrompt AI.DefaultGrokModel 1000
    = (calls, Return (response, Some e)) ->
  AI.SuggestMessageBreaks c message
    = (calls, Return (AI.fallbackMessageBreaks message, None)).
Proof.
  intros H E. unfold AI.SuggestMessageBreaks.
  apply Nat.leb_gt in H. rewrite H, E. reflexivity.
Qed.

(** A well-formed JSON body whose first choice has no ["message"]. *)
Definition choiceWithoutMessage : AI.JSON :=
  AI.JObject [(str "choices", AI.JArray [AI.JObject []])].

Definition choiceWithoutMessageText : gostring :=
  str "{" ++ AI.DQ ++ str "choices" ++ AI.DQ ++ str ":[{}]}".

(** C6 fails on the code: with status 200 and the body
    [{"choices":[{}]}], a reply of 501 bytes makes [askGrok] panic on its
    unchecked type assertion, and [SuggestMessageBreaks] with it. *)
Theorem SuggestMessageBreaks_panics_on_malformed_choice :
  snd (AI.SuggestMessageBreaks
         (clientAnswering (AI.Response 200 choiceWithoutMessageText
                                       (Some choiceWithoutMessage)))
         (Repeat (str "a") 501))
  = Panic.
Proof. vm_compute. reflexivity. Qed.

End SegmentationFacts.

(* ================================================================== *)
(** ** Length enforcement, pacing and delivery *)
(* ================================================================== *)

Module DeliveryFacts.
Import FallbackFacts SegmentationFacts.

(** The Length Enforcer of the specification, as the loop of
    [sendLongResponse] performs it: a chunk within the limit is kept, a
    longer one is replaced by the pieces of [splitLongChunk]. *)
Definition enforceLength (chunks : list gostring) : list gostring :=
  flat_map (fun chunk =>
              if Bot.MaxDiscordMessageLength <? len chunk
              then Bot.splitLongChunk chunk else [chunk])
           chunks.

(** The delay of the specification:
    [clamp(minimum + length * rate, minimum, maximum)], in nanoseconds,
    the rate being [TypingSpeed / 80]. *)
Definition clampedDelay (chunk : gostring) : Bot.Duration :=
  Z.max Bot.MinMessageDelay
        (Z.min (Bot.MinMessageDelay + Z.of_nat (len chunk) * Bot.TypingSpeed / 80)
               Bot.MaxMessageDelay).

(** A delivery plan: the chunks in order, each with the delay that
    precedes it, if any. *)
Definition DeliveryPlan : Type := list (gostring * option Bot.Duration).

Definition planFrom (delayFirst : bool) (chunks : list gostring) : DeliveryPlan :=
  match chunks with
  | [] => []
  | first :: rest =>
      (first, if delayFirst then Some (Bot.calculateTypingDelay first) else None)
      :: map (fun c => (c, Some (Bot.calculateTypingDelay c))) rest
  end.

Definition deliveryPlan (chunks : list gostring) : DeliveryPlan :=
  planFrom false (enforceLength chunks).

(** What executing one entry of a plan does to the outside. *)
Definition paced (channelID : gostring) (entry : gostring * option Bot.Duration)
    : list Bot.Event :=
  match snd entry with
  | Some delay =>
      [Bot.GoShowTypingIndicator channelID delay; Bot.SleepEv delay;
       Bot.ChannelMessageSendEv channelID (fst entry)]
  | None => [Bot.ChannelMessageSendEv channelID (fst entry)]
  end.

Definition isLog (e : Bot.Event) : bool :=
  match e with
  | Bot.LogInfo _ | Bot.LogError _ => true
  | _ => false
  end.

(** The events other than log lines. *)
Definition observable (evs : list Bot.Event) : list Bot.Event :=
  filter (fun e => negb (isLog e)) evs.

(** The contents of the sends attempted, in order. *)
Definition sentContents (evs : list Bot.Event) : list gostring :=
  flat_map (fun e => match e with
                     | Bot.ChannelMessageSendEv _ content => [content]
                     | _ => []
                     end) evs.

(** *** [splitLongChunk] *)

Lemma firstn_min_skipn (A : Type) (t : list A) (M : nat) :
  firstn (Nat.min M (length t)) t ++ skipn M t = t.
Proof.
  destruct (Nat.le_gt_cases M (length t)) as [H|H].
  - rewrite Nat.min_l by exact H. apply firstn_skipn.
  - rewrite Nat.min_r by lia. rewrite firstn_all, skipn_all2 by lia.
    apply app_nil_r.
Qed.

Lemma slice_piece (chunk : gostring) (i : nat) :
  i <= len chunk ->
  slice chunk i (Nat.min (i + Bot.MaxDiscordMessageLength) (len chunk))
  = firstn (Nat.min Bot.MaxDiscordMessageLength (length (skipn i chunk)))
           (skipn i chunk).
Proof.
  intros H. unfold slice, len in *. rewrite length_skipn. f_equal. lia.
Qed.

(** The bound on the turns of [splitLoop] is not what ends it. *)
Lemma splitLoop_enough (chunk : gostring) :
  forall n m i acc,
    len chunk - i <= n -> len chunk - i <= m ->
    Bot.splitLoop n chunk i acc = Bot.splitLoop m chunk i acc.
Proof.
  induction n as [|n IH]; intros m i acc Hn Hm.
  - destruct m; [reflexivity|]. cbn [Bot.splitLoop].
    destruct (i <? len chunk) eqn:E; [|reflexivity].
    apply Nat.ltb_lt in E. lia.
  - destruct m as [|m]; cbn [Bot.splitLoop];
      destruct (i <? len chunk) eqn:E; try reflexivity.
    + apply Nat.ltb_lt in E. lia.
    + apply IH; unfold Bot.MaxDiscordMessageLength; lia.
Qed.

Lemma splitLoop_concat (chunk : gostring) :
  forall n i acc,
    len chunk - i <= n -> i <= len chunk ->
    concat (Bot.splitLoop n chunk i acc) = concat acc ++ skipn i chunk.
Proof.
  induction n as [|n IH]; intros i acc Hn Hi; cbn [Bot.splitLoop].
  - rewrite skipn_all2 by (unfold len in *; lia). now rewrite app_nil_r.
  - destruct (i <? len chunk) eqn:E.
    + apply Nat.ltb_lt in E.
      destruct (Nat.le_gt_cases (i + Bot.MaxDiscordMessageLength) (len chunk))
        as [H|H].
      * rewrite IH by (unfold Bot.MaxDiscordMessageLength in *; lia).
        rewrite concat_app. cbn [concat]. rewrite app_nil_r, <- app_assoc.
        f_equal. rewrite slice_piece by lia.
        rewrite Nat.add_comm, <- skipn_skipn. apply firstn_min_skipn.
      * rewrite (@splitLoop_enough chunk n 0) by lia. cbn [Bot.splitLoop].
        rewrite concat_app. cbn [concat]. rewrite app_nil_r. f_equal.
        rewrite slice_piece by lia. unfold len in *.
        rewrite Nat.min_r by (rewrite length_skipn; lia).
        apply firstn_all.
    + apply Nat.ltb_ge in E.
      rewrite skipn_all2 by (unfold len in *; lia). now rewrite app_nil_r.
Qed.

(** From an index inside the chunk the loop adds pieces of exactly 2000
    bytes and then a last one of 1 to 2000 bytes. *)
Lemma splitLoop_pieces (chunk : gostring) :
  forall n i acc,
    len chunk - i <= n -> i < len chunk ->
    exists full last,
      Bot.splitLoop n chunk i acc = acc ++ full ++ [last] /\
      Forall (fun c => len c = Bot.MaxDiscordMessageLength) full /\
      1 <= len last <= Bot.MaxDiscordMessageLength.
Proof.
  induction n as [|n IH]; intros i acc Hn Hi; [lia|].
  cbn [Bot.splitLoop]. apply Nat.ltb_lt in Hi as E. rewrite E.
  destruct (Nat.le_gt_cases (len chunk) (i + Bot.MaxDiscordMessageLength))
    as [H|H].
  - rewrite (@splitLoop_enough chunk n 0) by lia. cbn [Bot.splitLoop].
    exists [], (slice chunk i (Nat.min (i + Bot.MaxDiscordMessageLength) (len chunk))).
    split; [reflexivity|split; [constructor|]].
    rewrite slice_piece by lia. unfold len in *.
    rewrite length_firstn, length_skipn.
    unfold Bot.MaxDiscordMessageLength in *. lia.
  - destruct (IH (i + Bot.MaxDiscordMessageLength)
                 (acc ++ [slice chunk i
                            (Nat.min (i + Bot.MaxDiscordMessageLength) (len chunk))]))
      as (full & last & E' & Hfull & Hlast);
      [unfold Bot.MaxDiscordMessageLength in *; lia|lia|].
    exists (slice chunk i (Nat.min (i + Bot.MaxDiscordMessageLength) (len chunk))
            :: full), last.
    split; [rewrite E', <- app_assoc; reflexivity|split; [|exact Hlast]].
    constructor; [|exact Hfull].
    rewrite slice_piece by lia. unfold len in *.
    rewrite length_firstn, length_skipn.
    unfold Bot.MaxDiscordMessageLength in *. lia.
Qed.

Lemma splitLongChunk_concat (chunk : gostring) :
  concat (Bot.splitLongChunk chunk) = chunk.
Proof.
  unfold Bot.splitLongChunk. rewrite splitLoop_concat by lia. reflexivity.
Qed.

Lemma splitLongChunk_pieces (chunk : gostring) :
  0 < len chunk ->
  exists full last,
    Bot.splitLongChunk chunk = full ++ [last] /\
    Forall (fun c => len c = Bot.MaxDiscordMessageLength) full /\
    1 <= len last <= Bot.MaxDiscordMessageLength.
Proof.
  intros H. unfold Bot.splitLongChunk.
  destruct (@splitLoop_pieces chunk (len chunk) 0 []) as (full & last & E & F);
    [lia|exact H|].
  exists full, last. split; [exact E|exact F].
Qed.

Lemma splitLongChunk_bounded (chunk : gostring) :
  Forall (fun c => len c <= Bot.MaxDiscordMessageLength)
         (Bot.splitLongChunk chunk).
Proof.
  destruct chunk as [|b chunk]; [constructor|].
  destruct (@splitLongChunk_pieces (b :: chunk)) as (full & last & E & Hf & Hl);
    [simpl; lia|].
  rewrite E. apply Forall_app. split.
  - eapply Forall_impl; [|exact Hf]. intros c Hc. simpl in Hc. lia.
  - constructor; [lia|constructor].
Qed.

(** *** The length enforcer *)

Lemma enforceLength_app (before after : list gostring) :
  enforceLength (before ++ after) = enforceLength before ++ enforceLength after.
Proof. apply flat_map_app. Qed.

Lemma enforceLength_bounded (chunks : list gostring) :
  Forall (fun c => len c <= 2000) (enforceLength chunks).
Proof.
  induction chunks as [|chunk chunks IH]; [constructor|].
  cbn [enforceLength flat_map]. apply Forall_app. split; [|exact IH].
  destruct (Bot.MaxDiscordMessageLength <? len chunk) eqn:E.
  - apply splitLongChunk_bounded.
  - apply Nat.ltb_ge in E. constructor; [exact E|constructor].
Qed.

Lemma enforceLength_concat (chunks : list gostring) :
  concat (enforceLength chunks) = concat chunks.
Proof.
  induction chunks as [|chunk chunks IH]; [reflexivity|].
  cbn [enforceLength flat_map concat]. rewrite concat_app.
  fold (enforceLength chunks). rewrite IH. f_equal.
  destruct (Bot.MaxDiscordMessageLength <? len chunk).
  - apply splitLongChunk_concat.
  - apply app_nil_r.
Qed.

(** Every chunk gives at least one piece. *)
Lemma enforceLength_cons_nonempty (chunk : gostring) (chunks : list gostring) :
  enforceLength (chunk :: chunks) <> [].
Proof.
  cbn [enforceLength flat_map].
  destruct (Bot.MaxDiscordMessageLength <? len chunk) eqn:E; [|discriminate].
  apply Nat.ltb_lt in E.
  destruct (@splitLongChunk_pieces chunk) as (full & last & E' & _);
    [unfold Bot.MaxDiscordMessageLength in E; lia|].
  rewrite E'. intros H. apply app_eq_nil in H as [H _].
  apply app_eq_nil in H as [_ H]. discriminate.
Qed.

(** Running the enforcer on chunks that are within the limit changes
    nothing. *)
Lemma enforceLength_idempotent (chunks : list gostring) :
  Forall (fun c => len c <= 2000) chunks -> enforceLength chunks = chunks.
Proof.
  induction 1 as [|chunk chunks H _ IH]; [reflexivity|].
  cbn [enforceLength flat_map]. fold (enforceLength chunks). rewrite IH.
  apply Nat.ltb_ge in H. unfold Bot.MaxDiscordMessageLength. now rewrite H.
Qed.

(** A reply of 2001 bytes without a paragraph break: one chunk from the
    fallback splitter, cut into 2000 bytes and 1 byte. *)
Example enforce_2001 :
  map len (enforceLength (AI.fallbackMessageBreaks (Repeat (str "a") 2001)))
  = [2000; 1].
Proof. vm_compute. reflexivity. Qed.

(** *** The delay *)

(** Below 184 467 440 737 bytes the product does not leave [int64], and
    [calculateTypingDelay] is the clamp of the specification. *)
Lemma wrap64_small (z : Z) :
  (- 2 ^ 63 <= z < 2 ^ 63)%Z -> Bot.wrap64 z = z.
Proof.
  intros H. unfold Bot.wrap64.
  change (2 ^ 63)%Z with 9223372036854775808%Z in *.
  change (2 ^ 64)%Z with 18446744073709551616%Z.
  rewrite Z.mod_small; lia.
Qed.

Lemma calculateTypingDelay_clamp (chunk : gostring) :
  (Z.of_nat (len chunk) <= 184467440737)%Z ->
  Bot.calculateTypingDelay chunk = clampedDelay chunk.
Proof.
  intros H. unfold Bot.calculateTypingDelay, clampedDelay.
  unfold Bot.MinMessageDelay, Bot.MaxMessageDelay, Bot.TypingSpeed,
    Bot.Millisecond.
  set (n := Z.of_nat (len chunk)) in *.
  assert (0 <= n)%Z by (subst n; lia).
  rewrite (@wrap64_small (n * (50 * 1000000)))
    by (change (2 ^ 63)%Z with 9223372036854775808%Z; lia).
  rewrite Z.quot_div_nonneg by lia.
  assert (Hq : (n * (50 * 1000000) / 80 = n * 625000)%Z).
  { replace (n * (50 * 1000000))%Z with (n * 625000 * 80)%Z by lia.
    apply Z.div_mul. lia. }
  rewrite Hq.
  rewrite wrap64_small
    by (change (2 ^ 63)%Z with 9223372036854775808%Z; lia).
  destruct (Z.gtb_spec (5000 * 1000000 + n * 625000) (8000 * 1000000)); lia.
Qed.

Lemma clampedDelay_bounds (chunk : gostring) :
  (Bot.MinMessageDelay <= clampedDelay chunk <= Bot.MaxMessageDelay)%Z.
Proof.
  unfold clampedDelay, Bot.MinMessageDelay, Bot.MaxMessageDelay,
    Bot.Millisecond. lia.
Qed.

(** *** The trace of a delivery *)

Lemma observable_app (a b : list Bot.Event) :
  observable (a ++ b) = observable a ++ observable b.
Proof. apply filter_app. Qed.

Lemma sentContents_app (a b : list Bot.Event) :
  sentContents (a ++ b) = sentContents a ++ sentContents b.
Proof. apply flat_map_app. Qed.

Lemma sentContents_observable (evs : list Bot.Event) :
  sentContents (observable evs) = sentContents evs.
Proof.
  induction evs as [|e evs IH]; [reflexivity|].
  destruct e; simpl; rewrite ?IH; reflexivity.
Qed.

Lemma sentContents_paced (channelID : gostring) (plan : DeliveryPlan) :
  sentContents (flat_map (paced channelID) plan) = map fst plan.
Proof.
  induction plan as [|[c [d|]] plan IH]; [reflexivity| |];
    cbn [flat_map]; rewrite sentContents_app, IH; reflexivity.
Qed.

Lemma planFrom_fst (delayFirst : bool) (chunks : list gostring) :
  map fst (planFrom delayFirst chunks) = chunks.
Proof.
  destruct chunks as [|c chunks]; [reflexivity|]. cbn [planFrom map fst].
  f_equal. rewrite map_map. apply map_id.
Qed.

Lemma planFrom_app (delayFirst : bool) (pieces more : list gostring) :
  pieces <> [] ->
  planFrom delayFirst (pieces ++ more)
  = planFrom delayFirst pieces ++ planFrom true more.
Proof.
  destruct pieces as [|p pieces]; [congruence|]. intros _.
  cbn [planFrom app]. rewrite map_app. destruct more; reflexivity.
Qed.

Section Traces.
Variable Gateway : Type.
Variable ChannelMessageSend :
  gostring -> gostring -> Gateway -> option gostring * Gateway.
Variable showTypingIndicator : gostring -> Bot.Duration -> Gateway -> Gateway.

Let sendChunkWithDelay :=
  Bot.sendChunkWithDelay ChannelMessageSend showTypingIndicator.
Let sendSubChunks := Bot.sendSubChunks ChannelMessageSend showTypingIndicator.
Let sendChunks := Bot.sendChunks ChannelMessageSend showTypingIndicator.

Lemma sendChunkWithDelay_observable (channelID chunk : gostring)
    (addDelay : bool) (w : Bot.World Gateway) :
  observable (Bot.events (sendChunkWithDelay channelID chunk addDelay w))
  = observable (Bot.events w) ++ flat_map (paced channelID) (planFrom addDelay [chunk]).
Proof.
  unfold sendChunkWithDelay, Bot.sendChunkWithDelay.
  destruct addDelay; cbn [Bot.gateway Bot.events Bot.emit];
    destruct (ChannelMessageSend _ _ _) as [[e|] g];
    cbn [Bot.gateway Bot.events Bot.emit];
    rewrite ?observable_app, <- ?app_assoc; reflexivity.
Qed.

Lemma sendSubChunks_observable (channelID : gostring) (i : nat)
    (subChunks : list gostring) :
  forall j (w : Bot.World Gateway),
    observable (Bot.events (sendSubChunks channelID i j subChunks w))
    = observable (Bot.events w)
      ++ flat_map (paced channelID) (planFrom ((0 <? i) || (0 <? j)) subChunks).
Proof.
  induction subChunks as [|c rest IH]; intros j w.
  - cbn. now rewrite app_nil_r.
  - cbn [sendSubChunks Bot.sendSubChunks].
    unfold sendSubChunks in IH. rewrite IH.
    fold sendChunkWithDelay. rewrite sendChunkWithDelay_observable.
    rewrite <- app_assoc, <- flat_map_app. f_equal. f_equal.
    replace ((0 <? i) || (0 <? S j)) with true by (now rewrite orb_true_r).
    change (c :: rest) with ([c] ++ rest).
    rewrite planFrom_app by discriminate. reflexivity.
Qed.

Lemma sendChunks_observable (channelID : gostring) (chunks : list gostring) :
  forall i (w : Bot.World Gateway),
    observable (Bot.events (sendChunks channelID i chunks w))
    = observable (Bot.events w)
      ++ flat_map (paced channelID) (planFrom (0 <? i) (enforceLength chunks)).
Proof.
  induction chunks as [|chunk rest IH]; intros i w.
  - cbn. now rewrite app_nil_r.
  - cbn [sendChunks Bot.sendChunks]. unfold sendChunks in IH. rewrite IH.
    change (chunk :: rest) with ([chunk] ++ rest).
    rewrite enforceLength_app, planFrom_app by apply enforceLength_cons_nonempty.
    rewrite flat_map_app, app_assoc. f_equal.
    cbn [enforceLength flat_map]. rewrite app_nil_r.
    destruct (Bot.MaxDiscordMessageLength <? len chunk).
    + fold sendSubChunks. rewrite sendSubChunks_observable.
      now rewrite orb_false_r.
    + fold sendChunkWithDelay. apply sendChunkWithDelay_observable.
Qed.

Lemma sendChunks_sentContents (channelID : gostring) (chunks : list gostring)
    (w : Bot.World Gateway) :
  sentContents (Bot.events (sendChunks channelID 0 chunks w))
  = sentContents (Bot.events w) ++ enforceLength chunks.
Proof.
  rewrite <- sentContents_observable, sendChunks_observable.
  rewrite sentContents_app, sentContents_observable, sentContents_paced.
  now rewrite planFrom_fst.
Qed.

End Traces.

(** *** The claims on length enforcement, pacing and delivery *)

(** C1: for every chunk sequence the length enforcer gives pieces of at
    most 2000 bytes whose concatenation, in order, is the concatenation
    of the input.  A chunk within the limit passes through; a longer one
    is cut, in place, into pieces of exactly 2000 bytes and a last piece
    of 1 to 2000 bytes that concatenate to it.  These pieces, in this
    order, are what the loop of [sendLongResponse] sends. *)
Theorem length_enforcer_lossless (chunks : list gostring) :
  Forall (fun c => len c <= 2000) (enforceLength chunks) /\
  concat (enforceLength chunks) = concat chunks /\
  enforceLength chunks =
    flat_map (fun chunk => if len chunk <=? 2000 then [chunk]
                           else Bot.splitLongChunk chunk) chunks /\
  (forall chunk,
     concat (Bot.splitLongChunk chunk) = chunk /\
     (2000 < len chunk ->
      exists full last,
        Bot.splitLongChunk chunk = full ++ [last] /\
        Forall (fun c => len c = 2000) full /\
        1 <= len last <= 2000)) /\
  (forall (Gateway : Type)
          (ChannelMessageSend :
             gostring -> gostring -> Gateway -> option gostring * Gateway)
          (showTypingIndicator : gostring -> Bot.Duration -> Gateway -> Gateway)
          (channelID : gostring) (w : Bot.World Gateway),
     sentContents
       (Bot.events (Bot.sendChunks ChannelMessageSend showTypingIndicator
                                   channelID 0 chunks w))
     = sentContents (Bot.events w) ++ enforceLength chunks).
Proof.
  split; [apply enforceLength_bounded|].
  split; [apply enforceLength_concat|].
  split; [|split].
  - unfold enforceLength. apply flat_map_ext. intros chunk.
    unfold Bot.MaxDiscordMessageLength.
    destruct (Nat.ltb_spec 2000 (len chunk)), (Nat.leb_spec (len chunk) 2000);
      try reflexivity; lia.
  - intros chunk. split; [apply splitLongChunk_concat|].
    intros H. apply splitLongChunk_pieces. lia.
  - intros. apply sendChunks_sentContents.
Qed.

(** C3: the pipeline executes the delivery plan of its chunks: the first
    piece is sent at once, with no typing indicator and no sleep before
    it; before every later piece the typing indicator is started and the
    pipeline sleeps for [calculateTypingDelay] of that piece, which is
    the clamp of the specification and lies between 5000 ms and 8000 ms.
    The function itself is that clamp, cap included, on every chunk
    short enough for the product to stay within [int64], not only on
    the pieces the pipeline sends. *)
Theorem pacing_delays (Gateway : Type)
    (ChannelMessageSend :
       gostring -> gostring -> Gateway -> option gostring * Gateway)
    (showTypingIndicator : gostring -> Bot.Duration -> Gateway -> Gateway)
    (channelID : gostring) (chunks : list gostring) (w : Bot.World Gateway) :
  observable
    (Bot.events (Bot.sendChunks ChannelMessageSend showTypingIndicator
                                channelID 0 chunks w))
  = observable (Bot.events w)
    ++ flat_map (paced channelID) (deliveryPlan chunks) /\
  deliveryPlan chunks =
    match enforceLength chunks with
    | [] => []
    | first :: rest =>
        (first, None) :: map (fun c => (c, Some (clampedDelay c))) rest
    end /\
  Forall (fun c => Bot.calculateTypingDelay c = clampedDelay c)
         (enforceLength chunks) /\
  (forall c, (5000 * Bot.Millisecond <= clampedDelay c <= 8000 * Bot.Millisecond)%Z) /\
  (forall c, (Z.of_nat (len c) <= 184467440737)%Z ->
             Bot.calculateTypingDelay c = clampedDelay c).
Proof.
  assert (Hd : Forall (fun c => Bot.calculateTypingDelay c = clampedDelay c)
                      (enforceLength chunks)).
  { eapply Forall_impl; [|apply enforceLength_bounded].
    intros c Hc. apply calculateTypingDelay_clamp. simpl in Hc. lia. }
  split; [apply sendChunks_observable|].
  split; [|split; [exact Hd|split; [apply clampedDelay_bounds|
                                     exact calculateTypingDelay_clamp]]].
  unfold deliveryPlan. destruct (enforceLength chunks) as [|first rest];
    [reflexivity|].
  cbn [planFrom]. f_equal. apply map_ext_in. intros c Hc.
  inversion Hd as [|? ? _ Hrest]; subst.
  rewrite Forall_forall in Hrest. now rewrite (Hrest c Hc).
Qed.

(** C7: whatever the gateway answers to each send, the pipeline attempts
    every piece of the plan, in order, and [sendLongResponse] completes
    without a result whenever segmentation returns. *)
Theorem delivery_continues_after_failed_send (Gateway : Type)
    (ChannelMessageSend :
       gostring -> gostring -> Gateway -> option gostring * Gateway)
    (showTypingIndicator : gostring -> Bot.Duration -> Gateway -> Gateway)
    (SuggestMessageBreaks : gostring -> Go (list gostring * option AI.error))
    (channelID response : gostring) (w : Bot.World Gateway) :
  (forall chunks,
     sentContents
       (Bot.events (Bot.sendChunks ChannelMessageSend showTypingIndicator
                                   channelID 0 chunks w))
     = sentContents (Bot.events w) ++ enforceLength chunks) /\
  fst (Bot.sendLongResponse ChannelMessageSend showTypingIndicator
                            SuggestMessageBreaks channelID response w)
  = match SuggestMessageBreaks response with
    | Return _ => Return tt
    | Panic => Panic
    end /\
  sentContents
    (Bot.events (snd (Bot.sendLongResponse ChannelMessageSend showTypingIndicator
                                           SuggestMessageBreaks channelID
                                           response w)))
  = sentContents (Bot.events w)
    ++ match SuggestMessageBreaks response with
       | Return (chunks, None) => enforceLength chunks
       | Return (_, Some _) => enforceLength (Bot.fallbackChunking response)
       | Panic => []
       end.
Proof.
  split; [intros; apply sendChunks_sentContents|].
  unfold Bot.sendLongResponse.
  destruct (SuggestMessageBreaks response) as [[chunks [e|]]|]; cbn [fst snd].
  - split; [reflexivity|]. rewrite sendChunks_sentContents.
    cbn [Bot.emit Bot.events]. rewrite sentContents_app. cbn.
    now rewrite app_nil_r.
  - split; [reflexivity|apply sendChunks_sentContents].
  - split; [reflexivity|now rewrite app_nil_r].
Qed.

(** A gateway that refuses every message, and one that accepts them. *)
Definition refuseAll (channelID content : gostring) (g : unit)
    : option gostring * unit :=
  (Some (str "HTTP 500 Internal Server Error"), g).
Definition acceptAll (channelID content : gostring) (g : unit)
    : option gostring * unit :=
  (None, g).
Definition idleTyping (channelID : gostring) (d : Bot.Duration) (g : unit) : unit :=
  g.
Definition startWorld : Bot.World unit :=
  {| Bot.gateway := tt; Bot.events := [] |}.

(** With every send failing, the three chunks are all attempted. *)
Lemma refused_sends_are_all_attempted :
  Bot.sendLongResponse refuseAll idleTyping
    (fun _ => Return ([str "one"; str "two"; str "three"], None))
    (str "channel") (str "one two three") startWorld
  = (Return tt,
     {| Bot.gateway := tt;
        Bot.events :=
          [Bot.ChannelMessageSendEv (str "channel") (str "one");
           Bot.LogError (str "failed to send message chunk");
           Bot.LogInfo (str "waiting before next message chunk");
           Bot.GoShowTypingIndicator (str "channel") 5001875000%Z;
           Bot.SleepEv 5001875000%Z;
           Bot.ChannelMessageSendEv (str "channel") (str "two");
           Bot.LogError (str "failed to send message chunk");
           Bot.LogInfo (str "waiting before next message chunk");
           Bot.GoShowTypingIndicator (str "channel") 5003125000%Z;
           Bot.SleepEv 5003125000%Z;
           Bot.ChannelMessageSendEv (str "channel") (str "three");
           Bot.LogError (str "failed to send message chunk")] |}).
Proof. vm_compute. reflexivity. Qed.

(** C8, as stated, fails: for the empty reply the fallback splitter and
    [SuggestMessageBreaks] return one chunk, the empty string, and the
    pipeline sends one message. *)
Lemma empty_reply_yields_a_chunk :
  AI.fallbackMessageBreaks [] <> [] /\
  snd (AI.SuggestMessageBreaks (clientAnswering AI.DoError) [])
    = Return ([[]], None) /\
  sentContents
    (Bot.events
       (snd (Bot.sendLongResponse acceptAll idleTyping
               (fun m => snd (AI.SuggestMessageBreaks (clientAnswering AI.DoError) m))
               (str "channel") [] startWorld)))
    = [[]].
Proof.
  split; [discriminate|]. split; vm_compute; reflexivity.
Qed.

(** C8, amended: for the empty reply segmentation yields exactly one
    chunk, the empty string, without a request to the provider, and the
    pipeline attempts exactly one send, of the empty string, with no
    delay before it. *)
Theorem empty_reply_single_empty_chunk (c : AI.AIClient) (Gateway : Type)
    (ChannelMessageSend :
       gostring -> gostring -> Gateway -> option gostring * Gateway)
    (showTypingIndicator : gostring -> Bot.Duration -> Gateway -> Gateway)
    (channelID : gostring) (w : Bot.World Gateway) :
  AI.SuggestMessageBreaks c [] = ([], Return ([[]], None)) /\
  AI.fallbackMessageBreaks [] = [[]] /\
  Bot.fallbackChunking [] = [[]] /\
  observable
    (Bot.events
       (snd (Bot.sendLongResponse ChannelMessageSend showTypingIndicator
               (fun m => snd (AI.SuggestMessageBreaks c m))
               channelID [] w)))
  = observable (Bot.events w) ++ [Bot.ChannelMessageSendEv channelID []].
Proof.
  repeat split.
  unfold Bot.sendLongResponse. cbn [AI.SuggestMessageBreaks len length Nat.leb snd].
  apply (sendChunks_observable ChannelMessageSend showTypingIndicator
           channelID [[]] 0 w).
Qed.

End DeliveryFacts.

(* ================================================================== *)
(** ** Further invariants of segmentation *)
(* ================================================================== *)

#[global] Set Default Proof Using "Type".

Module SegmentationInvariants.
Import GoStringsFacts FallbackFacts SegmentationFacts.

(** *** [Split] and [Join] are inverse *)

Lemma HasPrefix_app (prefix s : gostring) :
  HasPrefix s prefix = true -> s = prefix ++ skipn (len prefix) s.
Proof.
  revert s; induction prefix as [|p ps IH]; intros [|c cs]; simpl;
    try discriminate; try reflexivity.
  intros H. apply andb_prop in H as [Hc H].
  apply Ascii.eqb_eq in Hc. subst c. f_equal. now apply IH.
Qed.

Lemma Index_found (substr s : gostring) (m : nat) :
  Index s substr = Some m ->
  s = firstn m s ++ substr ++ skipn (m + len substr) s.
Proof.
  revert m; induction s as [|c s IH]; intros m.
  - destruct substr; simpl; [|discriminate]. now intros [= <-].
  - cbn [Index]. destruct (HasPrefix (c :: s) substr) eqn:E.
    + intros [= <-]. now apply HasPrefix_app.
    + destruct (Index s substr) as [k|]; simpl; [|discriminate].
      intros [= <-]. simpl. f_equal. now apply IH.
Qed.

Lemma genSplit_nonempty (n : nat) (s sep : gostring) : genSplit n s sep <> [].
Proof. destruct n; simpl; [|destruct (Index s sep)]; discriminate. Qed.

Lemma Join_genSplit (sep : gostring) :
  forall n s, Join (genSplit n s sep) sep = s.
Proof.
  induction n as [|n IH]; intros s; [reflexivity|]. cbn [genSplit].
  destruct (Index s sep) as [m|] eqn:E; [|reflexivity].
  rewrite Join_cons by apply genSplit_nonempty. rewrite IH.
  unfold slice. rewrite Nat.sub_0_r. symmetry. now apply Index_found.
Qed.

Lemma Join_Split (s sep : gostring) : Join (Split s sep) sep = s.
Proof. apply Join_genSplit. Qed.

(** *** Lengths *)

(** The bytes of a list of strings, separators not counted. *)
Definition totalLen (l : list gostring) : nat :=
  list_sum (map len l).

Lemma totalLen_app (a b : list gostring) :
  totalLen (a ++ b) = totalLen a + totalLen b.
Proof. unfold totalLen. now rewrite map_app, list_sum_app. Qed.

Lemma len_Join (l : list gostring) (sep : gostring) :
  len (Join l sep) + len sep = totalLen l + length l * len sep \/ l = [].
Proof.
  induction l as [|a l IH]; [now right|]. left.
  destruct l as [|b l].
  - unfold totalLen. simpl. lia.
  - rewrite Join_cons by discriminate.
    destruct IH as [IH|IH]; [|discriminate].
    unfold len in *. rewrite !length_app.
    change (totalLen (a :: b :: l)) with (length a + totalLen (b :: l)).
    change (length (a :: b :: l)) with (S (length (b :: l))). lia.
Qed.

Lemma totalLen_trim_filter (pieces : list gostring) :
  totalLen (filter (fun p => negb (isEmpty p)) (map TrimSpace pieces))
    <= totalLen pieces /\
  length (filter (fun p => negb (isEmpty p)) (map TrimSpace pieces))
    <= length pieces.
Proof.
  induction pieces as [|p pieces [IH1 IH2]]; [split; reflexivity|].
  cbn [map filter]. pose proof (TrimSpace_length p) as Hp.
  unfold totalLen in *.
  destruct (isEmpty (TrimSpace p)); simpl; lia.
Qed.

Lemma totalLen_groups (groups : list (list gostring)) :
  Forall (fun g => g <> []) groups ->
  totalLen (map (fun g => Join g paragraphSep) groups) + 2 * length groups
  = totalLen (concat groups) + 2 * length (concat groups).
Proof.
  induction 1 as [|g groups Hg _ IH]; [reflexivity|].
  cbn [map concat]. rewrite totalLen_app, length_app.
  change (totalLen (Join g paragraphSep :: map (fun g => Join g paragraphSep) groups))
    with (len (Join g paragraphSep)
          + totalLen (map (fun g => Join g paragraphSep) groups)).
  destruct (len_Join g paragraphSep) as [E|E]; [|congruence].
  change (len paragraphSep) with 2 in E. simpl length. lia.
Qed.

(** *** Building blocks *)

Definition keptPieces (response : gostring) : list gostring :=
  filter (fun piece => negb (isEmpty piece) && (len piece <=? 2000))
         (map TrimSpace (Split response (str "<<<BREAK>>>"))).

Lemma fallbackLoop_wellformed (message : gostring) :
  Forall (fun chunk => chunk <> [] /\ TrimSpace chunk = chunk)
         (AI.fallbackLoop message).
Proof.
  rewrite fallbackLoop_groups.
  destruct (groupsOf_ok (paragraphsOf message)) as [Hc Hg].
  pose proof (paragraphsOf_Trimmed message) as Ht. rewrite <- Hc in Ht.
  apply Forall_concat in Ht.
  apply Forall_map. rewrite Forall_forall in *. intros g Hin.
  destruct (Hg g Hin) as [Hne _].
  assert (T : Trimmed (Join g paragraphSep))
    by (apply Trimmed_Join; [exact Hne|now apply Ht]).
  split; [now apply Trimmed_nonempty|now apply Trimmed_TrimSpace].
Qed.

Lemma fallbackMessageBreaks_cases (message : gostring) :
  AI.fallbackMessageBreaks message = [message] \/
  2 <= length (AI.fallbackLoop message) /\
  AI.fallbackMessageBreaks message = AI.fallbackLoop message.
Proof.
  unfold AI.fallbackMessageBreaks.
  destruct (length (AI.fallbackLoop message) <=? 1) eqn:E; [now left|].
  apply Nat.leb_gt in E. right. split; [lia|reflexivity].
Qed.

Lemma keptPieces_wellformed (response : gostring) :
  Forall (fun chunk => chunk <> [] /\ TrimSpace chunk = chunk /\ len chunk <= 2000)
         (keptPieces response).
Proof.
  apply Forall_forall. intros chunk Hin.
  apply filter_In in Hin as [Hin Hk]. apply andb_prop in Hk as [Hne Hlen].
  apply in_map_iff in Hin as (piece & <- & _). apply Nat.leb_le in Hlen.
  destruct (TrimSpace_Trimmed piece) as [H|H];
    [rewrite H in Hne; discriminate|].
  split; [now apply Trimmed_nonempty|split; [now apply Trimmed_TrimSpace|exact Hlen]].
Qed.

Lemma parseMessageBreaks_cases (response originalMessage : gostring) :
  AI.parseMessageBreaks response originalMessage
    = AI.fallbackMessageBreaks originalMessage \/
  2 <= length (keptPieces response) /\
  AI.parseMessageBreaks response originalMessage = keptPieces response.
Proof.
  unfold AI.parseMessageBreaks. cbn [fold_left app].
  rewrite (fold_left_keep TrimSpace
             (fun piece => negb (isEmpty piece) && (len piece <=? 2000))).
  cbn [app]. fold (keptPieces response).
  destruct (length (keptPieces response) <=? 1) eqn:E; [now left|].
  apply Nat.leb_gt in E. right. split; [lia|reflexivity].
Qed.

(** X1: the fallback splitter never returns an empty list.  When it returns
    two or more chunks, none of them is empty and none begins or ends
    with white space. *)
Theorem fallback_chunks_wellformed (message : gostring) :
  1 <= length (AI.fallbackMessageBreaks message) /\
  (AI.fallbackMessageBreaks message = [message] \/
   2 <= length (AI.fallbackMessageBreaks message) /\
   Forall (fun chunk => chunk <> [] /\ TrimSpace chunk = chunk)
          (AI.fallbackMessageBreaks message)).
Proof.
  destruct (fallbackMessageBreaks_cases message) as [E|[H E]]; rewrite E.
  - split; [simpl; lia|now left].
  - split; [lia|right; split; [exact H|apply fallbackLoop_wellformed]].
Qed.

(** X2: the chunks of the fallback splitter never hold more bytes than the
    reply: splitting only drops white space and separators. *)
Theorem fallback_never_adds_bytes (message : gostring) :
  totalLen (AI.fallbackMessageBreaks message) <= len message.
Proof.
  unfold AI.fallbackMessageBreaks.
  destruct (length (AI.fallbackLoop message) <=? 1) eqn:E.
  { unfold totalLen. simpl. lia. }
  apply Nat.leb_gt in E. rewrite fallbackLoop_groups in *.
  rewrite length_map in E.
  destruct (groupsOf_ok (paragraphsOf message)) as [Hc Hg].
  assert (Hne : Forall (fun g : list gostring => g <> [])
                       (groupsOf (paragraphsOf message))).
  { eapply Forall_impl; [|exact Hg]. now intros g [H _]. }
  pose proof (totalLen_groups Hne) as Ht. rewrite Hc in Ht.
  destruct (totalLen_trim_filter (Split message paragraphSep)) as [H1 H2].
  fold (paragraphsOf message) in H1, H2.
  destruct (len_Join (Split message paragraphSep) paragraphSep) as [HJ|HJ];
    [|exfalso; revert HJ; apply genSplit_nonempty].
  rewrite Join_Split in HJ. change (len paragraphSep) with 2 in HJ. lia.
Qed.

(** X3: what [parseMessageBreaks] returns is never empty: it is the result
    of the fallback splitter on the original message, or two or more
    pieces of the response, each non-empty, free of white space at both
    ends and of at most 2000 bytes. *)
Theorem parseMessageBreaks_chunks_wellformed (response originalMessage : gostring) :
  AI.parseMessageBreaks response originalMessage <> [] /\
  (AI.parseMessageBreaks response originalMessage
     = AI.fallbackMessageBreaks originalMessage \/
   2 <= length (AI.parseMessageBreaks response originalMessage) /\
   Forall (fun chunk => chunk <> [] /\ TrimSpace chunk = chunk /\ len chunk <= 2000)
          (AI.parseMessageBreaks response originalMessage)).
Proof.
  destruct (parseMessageBreaks_cases response originalMessage) as [E|[H E]];
    rewrite E.
  - split; [|now left].
    destruct (fallbackMessageBreaks_cases originalMessage) as [E'|[H' E']];
      rewrite E'; [discriminate|].
    intros H. rewrite H in H'. simpl in H'. lia.
  - split; [intros H'; rewrite H' in H; simpl in H; lia|].
    right. split; [exact H|apply keptPieces_wellformed].
Qed.

(** X4: [SuggestMessageBreaks] sends at most one request to the provider:
    none for a reply of at most 500 bytes or without an API key, one
    otherwise.  Without a key a longer reply is cut by the fallback
    splitter. *)
Theorem SuggestMessageBreaks_requests (c : AI.AIClient) (message : gostring) :
  length (fst (AI.SuggestMessageBreaks c message))
    = (if (len message <=? 500) || isEmpty (AI.xaiAPIKey c) then 0 else 1) /\
  (isEmpty (AI.xaiAPIKey c) = true ->
   AI.SuggestMessageBreaks c message
   = ([], Return (if len message <=? 500 then [message]
                  else AI.fallbackMessageBreaks message, None))).
Proof.
  unfold AI.SuggestMessageBreaks, AI.askGrok.
  destruct (len message <=? 500); [split; reflexivity|]. cbn [orb].
  destruct (isEmpty (AI.xaiAPIKey c)); [split; reflexivity|].
  split; [|discriminate].
  destruct (AI.httpClient c _) as [|status body decoded]; [reflexivity|].
  destruct (negb (status =? 200)%Z); [reflexivity|].
  destruct (AI.decodeMap decoded) as [result|]; [|reflexivity].
  destruct (AI.mapIndex result (str "choices")) as [| | | |[|choice0 ?]|];
    try reflexivity.
  destruct choice0 as [| | | | |choice]; try reflexivity.
  destruct (AI.mapIndex choice (str "message")) as [| | | | |msg];
    try reflexivity.
  destruct (AI.mapIndex msg (str "content")); reflexivity.
Qed.

(** X5: whenever [SuggestMessageBreaks] returns, its error is nil and its
    chunk list is not empty: it is the reply alone, or two or more
    chunks none of which is empty or has white space at either end. *)
Theorem SuggestMessageBreaks_chunks_wellformed (c : AI.AIClient)
    (message : gostring) :
  match snd (AI.SuggestMessageBreaks c message) with
  | Panic => True
  | Return (chunks, err) =>
      err = None /\ chunks <> [] /\
      (chunks = [message] \/
       2 <= length chunks /\
       Forall (fun chunk => chunk <> [] /\ TrimSpace chunk = chunk) chunks)
  end.
Proof.
  assert (F : AI.fallbackMessageBreaks message <> [] /\
              (AI.fallbackMessageBreaks message = [message] \/
               2 <= length (AI.fallbackMessageBreaks message) /\
               Forall (fun chunk => chunk <> [] /\ TrimSpace chunk = chunk)
                      (AI.fallbackMessageBreaks message))).
  { destruct (fallbackMessageBreaks_cases message) as [E|[H E]]; rewrite E.
    - split; [discriminate|now left].
    - split; [intros H'; rewrite H' in H; simpl in H; lia|].
      right. split; [exact H|apply fallbackLoop_wellformed]. }
  unfold AI.SuggestMessageBreaks.
  destruct (len message <=? 500); cbn [snd].
  { split; [reflexivity|split; [discriminate|now left]]. }
  destruct (AI.askGrok _ _ _ _ _) as [calls [[response [e|]]|]]; cbn [snd];
    [split; [reflexivity|exact F]| |exact I].
  split; [reflexivity|].
  destruct (parseMessageBreaks_cases response message) as [E|[H E]]; rewrite E;
    [exact F|].
  split; [intros H'; rewrite H' in H; simpl in H; lia|].
  right. split; [exact H|].
  eapply Forall_impl; [|apply keptPieces_wellformed].
  intros ch (Ha & Hb & _). now split.
Qed.

End SegmentationInvariants.

(* ================================================================== *)
(** ** Further invariants of length enforcement and delivery *)
(* ================================================================== *)

Module DeliveryInvariants.
Import GoStringsFacts FallbackFacts SegmentationFacts DeliveryFacts.
Import SegmentationInvariants.

Lemma splitLoop_length (chunk : gostring) :
  forall n i acc,
    len chunk - i <= n -> i <= len chunk ->
    length (Bot.splitLoop n chunk i acc)
    = length acc + (len chunk - i + 1999) / 2000.
Proof.
  induction n as [|n IH]; intros i acc Hn Hi; cbn [Bot.splitLoop].
  - replace (len chunk - i) with 0 by lia. simpl. lia.
  - destruct (i <? len chunk) eqn:E.
    + apply Nat.ltb_lt in E.
      destruct (Nat.le_gt_cases (i + Bot.MaxDiscordMessageLength) (len chunk))
        as [H|H]; unfold Bot.MaxDiscordMessageLength in *.
      * rewrite IH by lia. rewrite length_app. simpl length.
        replace (len chunk - i + 1999)
          with (len chunk - (i + 2000) + 1999 + 1 * 2000) by lia.
        rewrite Nat.div_add by lia. lia.
      * rewrite (@splitLoop_enough chunk n 0)
          by (unfold Bot.MaxDiscordMessageLength; lia).
        cbn [Bot.splitLoop]. rewrite length_app. simpl length.
        assert (Hq : (len chunk - i + 1999) / 2000 = 1).
        { symmetry. apply Nat.div_unique with (r := len chunk - i - 1); lia. }
        lia.
    + apply Nat.ltb_ge in E.
      replace (len chunk - i) with 0 by lia. simpl. lia.
Qed.

(** X6: [splitLongChunk] cuts a chunk of [n] bytes into [ceil(n / 2000)]
    pieces: none for the empty chunk, one up to 2000 bytes, two from
    2001 bytes on. *)
Theorem splitLongChunk_count (chunk : gostring) :
  length (Bot.splitLongChunk chunk) = (len chunk + 1999) / 2000.
Proof.
  unfold Bot.splitLongChunk. rewrite splitLoop_length by lia.
  simpl length. now rewrite Nat.sub_0_r.
Qed.

(** X7: as long as the product stays within [int64], the delay before a
    chunk is 5000 ms plus 0.625 ms per byte, capped at 8000 ms; the cap
    is reached from 4800 bytes on.  For what the pipeline sends, at most
    2000 bytes, the delay is therefore never more than 6250 ms. *)
Theorem calculateTypingDelay_linear (chunk : gostring) :
  (Z.of_nat (len chunk) <= 184467440737)%Z ->
  Bot.calculateTypingDelay chunk
    = Z.min (5000000000 + 625000 * Z.of_nat (len chunk)) 8000000000 /\
  (len chunk <= 2000 ->
   (Bot.calculateTypingDelay chunk <= 6250 * Bot.Millisecond)%Z) /\
  (4800 <= len chunk -> Bot.calculateTypingDelay chunk = Bot.MaxMessageDelay).
Proof.
  intros H. rewrite calculateTypingDelay_clamp by exact H.
  unfold clampedDelay, Bot.MinMessageDelay, Bot.MaxMessageDelay,
    Bot.TypingSpeed, Bot.Millisecond.
  set (n := Z.of_nat (len chunk)) in *.
  assert (Hn : (0 <= n)%Z) by (subst n; lia).
  assert (Hq : (n * (50 * 1000000) / 80 = 625000 * n)%Z).
  { replace (n * (50 * 1000000))%Z with (625000 * n * 80)%Z by lia.
    apply Z.div_mul. lia. }
  rewrite Hq. repeat split; intros; lia.
Qed.

Lemma calculateTypingDelay_linear_witness :
  Bot.calculateTypingDelay (Repeat (str "a") 1600)
    = Z.min (5000000000 + 625000 * Z.of_nat (len (Repeat (str "a") 1600)))
            8000000000 /\
  (len (Repeat (str "a") 1600) <= 2000 ->
   (Bot.calculateTypingDelay (Repeat (str "a") 1600) <= 6250 * Bot.Millisecond)%Z) /\
  (4800 <= len (Repeat (str "a") 1600) ->
   Bot.calculateTypingDelay (Repeat (str "a") 1600) = Bot.MaxMessageDelay).
Proof.
  apply (@calculateTypingDelay_linear (Repeat (str "a") 1600)).
  vm_compute. discriminate.
Defined.

Section WithGateway.
Variable Gateway : Type.
Variable ChannelMessageSend :
  gostring -> gostring -> Gateway -> option gostring * Gateway.
Variable showTypingIndicator : gostring -> Bot.Duration -> Gateway -> Gateway.

(** X8: with the AI client of the repository behind the interface, a
    delivery that does not panic attempts at least one message, and no
    message it attempts is longer than 2000 bytes. *)
Theorem sendLongResponse_messages (c : AI.AIClient)
    (channelID response : gostring) (w : Bot.World Gateway) :
  match snd (AI.SuggestMessageBreaks c response) with
  | Panic =>
      Bot.sendLongResponse ChannelMessageSend showTypingIndicator
        (fun m => snd (AI.SuggestMessageBreaks c m)) channelID response w
      = (Panic, w)
  | Return _ =>
      exists sent,
        sentContents
          (Bot.events
             (snd (Bot.sendLongResponse ChannelMessageSend showTypingIndicator
                     (fun m => snd (AI.SuggestMessageBreaks c m))
                     channelID response w)))
        = sentContents (Bot.events w) ++ sent /\
        sent <> [] /\
        Forall (fun content => len content <= 2000) sent
  end.
Proof.
  unfold Bot.sendLongResponse.
  pose proof (SuggestMessageBreaks_nil_error c response) as Hnil.
  assert (Hne : forall chunks err,
             snd (AI.SuggestMessageBreaks c response) = Return (chunks, err) ->
             chunks <> []).
  { unfold AI.SuggestMessageBreaks.
    destruct (len response <=? 500); cbn [snd]; [now intros ? ? [= <- _]|].
    assert (F : AI.fallbackMessageBreaks response <> []).
    { destruct (fallbackMessageBreaks_cases response) as [E|[H E]]; rewrite E;
        [discriminate|].
      intros H'. rewrite H' in H. simpl in H. lia. }
    destruct (AI.askGrok _ _ _ _ _) as [calls [[resp [e|]]|]]; cbn [snd];
      [now intros ? ? [= <- _]| |discriminate].
    intros ? ? [= <- _].
    destruct (parseMessageBreaks_cases resp response) as [E|[H E]]; rewrite E;
      [exact F|].
    intros H'. rewrite H' in H. simpl in H. lia. }
  destruct (snd (AI.SuggestMessageBreaks c response)) as [[chunks err]|];
    [|reflexivity].
  rewrite (Hnil chunks err eq_refl). cbn [snd].
  exists (enforceLength chunks). split; [apply sendChunks_sentContents|].
  split; [|apply enforceLength_bounded].
  specialize (Hne chunks err eq_refl).
  destruct chunks as [|chunk chunks]; [congruence|].
  apply enforceLength_cons_nonempty.
Qed.

(** X9: a reply of at most 500 bytes goes out as it is: one message, the
    reply itself, with no typing indicator and no sleep before it,
    whatever the provider would have answered. *)
Theorem sendLongResponse_short_reply (c : AI.AIClient)
    (channelID response : gostring) (w : Bot.World Gateway) :
  len response <= 500 ->
  fst (Bot.sendLongResponse ChannelMessageSend showTypingIndicator
         (fun m => snd (AI.SuggestMessageBreaks c m)) channelID response w)
  = Return tt /\
  observable
    (Bot.events
       (snd (Bot.sendLongResponse ChannelMessageSend showTypingIndicator
               (fun m => snd (AI.SuggestMessageBreaks c m))
               channelID response w)))
  = observable (Bot.events w) ++ [Bot.ChannelMessageSendEv channelID response].
Proof.
  intros H. unfold Bot.sendLongResponse, AI.SuggestMessageBreaks.
  apply Nat.leb_le in H as E. rewrite E. cbn [snd fst].
  split; [reflexivity|].
  rewrite (sendChunks_observable ChannelMessageSend showTypingIndicator
             channelID [response] 0 w).
  cbn [enforceLength flat_map]. unfold Bot.MaxDiscordMessageLength.
  replace (2000 <? len response) with false
    by (symmetry; apply Nat.ltb_ge; lia).
  reflexivity.
Qed.

End WithGateway.

Lemma sendLongResponse_short_reply_witness :
  fst (Bot.sendLongResponse acceptAll idleTyping
         (fun m => snd (AI.SuggestMessageBreaks (clientAnswering AI.DoError) m))
         (str "channel") (str "Pong!") startWorld)
  = Return tt /\
  observable
    (Bot.events
       (snd (Bot.sendLongResponse acceptAll idleTyping
               (fun m => snd (AI.SuggestMessageBreaks (clientAnswering AI.DoError) m))
               (str "channel") (str "Pong!") startWorld)))
  = observable (Bot.events startWorld)
    ++ [Bot.ChannelMessageSendEv (str "channel") (str "Pong!")].
Proof.
  apply (@sendLongResponse_short_reply unit acceptAll idleTyping
           (clientAnswering AI.DoError) (str "channel") (str "Pong!") startWorld).
  simpl. lia.
Defined.

End DeliveryInvariants.

(* ================================================================== *)
(** ** [internal/ai/client.go]: the two providers *)
(* ================================================================== *)

Module AIProviders.

Definition ProviderGrok : gostring := str "grok".
Definition ProviderOpenAI : gostring := str "openai".
Definition DefaultProvider : gostring := ProviderGrok.
Definition DefaultOpenAIModel : gostring := str "gpt-4o".

(** [openai.ChatCompletionRequest], with the fields [askOpenAI] sets:
    the messages are pairs of a role and a content. *)
Record ChatCompletionRequest : Type := {
  Model : gostring;
  MaxTokens : Z;
  Messages : list (gostring * gostring)
}.

(** A choice of an [openai.ChatCompletionResponse]. *)
Record ChatCompletionChoice : Type := {
  Content : gostring;
  FinishReason : gostring
}.

(** An [*openai.Client]: the token it was created with and what its
    [CreateChatCompletion] answers, an error or the choices of the
    response. *)
Record OpenAIClient : Type := {
  authToken : gostring;
  CreateChatCompletion : ChatCompletionRequest -> gostring + list ChatCompletionChoice
}.

(** The [AIClient] struct: the Grok side is the client of the
    segmentation code, [openaiClient] is [None] for the nil pointer. *)
Record AIClient : Type := {
  openaiClient : option OpenAIClient;
  openaiAPIKey : gostring;
  grokClient : AI.AIClient
}.

(** [NewAIClient], over the OpenAI service and the HTTP transport. *)
Definition NewAIClient
    (openaiService : gostring -> ChatCompletionRequest
                     -> gostring + list ChatCompletionChoice)
    (transport : AI.Request -> AI.HTTPResult)
    (openaiAPIKey xaiAPIKey : gostring) : AIClient :=
  let oaClient :=
    if negb (isEmpty openaiAPIKey)
    then Some {| authToken := openaiAPIKey;
                 CreateChatCompletion := openaiService openaiAPIKey |}
    else None in
  {| openaiClient := oaClient;
     openaiAPIKey := openaiAPIKey;
     grokClient := {| AI.xaiAPIKey := xaiAPIKey; AI.httpClient := transport |} |}.

(** The requests a call makes. *)
Inductive Call : Type :=
  | GrokCall (req : AI.Request)
  | OpenAICall (token : gostring) (req : ChatCompletionRequest).

(** [askOpenAI].  On a nil [openaiClient] the method call dereferences
    the nil pointer. *)
Definition askOpenAI (c : AIClient) (prompt systemMessage model : gostring)
    (maxTokens : Z) : list Call * Go (gostring * option AI.error) :=
  match openaiClient c with
  | None => ([], Panic)
  | Some client =>
      let req := {| Model := model;
                    MaxTokens := maxTokens;
                    Messages := [(str "system", systemMessage);
                                 (str "user", prompt)] |} in
      ([OpenAICall (authToken client) req],
       match CreateChatCompletion client req with
       | inl _ => Return ([], Some (AI.WrappedError (str "OpenAI API error")))
       | inr Choices =>
           match Choices with
           | [] => Return ([], Some (AI.APIError (str "OpenAI") 0
                                       (str "no response from OpenAI")))
           | choice0 :: _ => Return (Content choice0, None)
           end
       end)
  end.

(** [AskClient] *)
Definition AskClient (c : AIClient)
    (prompt systemMessage model provider : gostring) (maxTokens : Z)
    : list Call * Go (gostring * option AI.error) :=
  if streq provider ProviderOpenAI then
    match openaiClient c with
    | None =>
        ([], Return ([], Some (AI.ValidationError (str "OPENAI_API_KEY")
               (str "OpenAI support is deprecated; set OPENAI_API_KEY to enable overrides"))))
    | Some _ => askOpenAI c prompt systemMessage model maxTokens
    end
  else
    let (calls, r) := AI.askGrok (grokClient c) prompt systemMessage model maxTokens in
    (map GrokCall calls, r).

End AIProviders.

Module AIProvidersFacts.
Import AIProviders.

Lemma streq_true (a b : gostring) : streq a b = true <-> a = b.
Proof.
  unfold streq. destruct (list_eq_dec ascii_dec a b); split; congruence.
Qed.

(** The request [askGrok] builds. *)
Definition grokRequest (c : AI.AIClient) (prompt systemMessage model : gostring)
    (maxTokens : Z) : AI.Request :=
  {| AI.Authorization := str "Bearer " ++ AI.xaiAPIKey c;
     AI.model := if isEmpty model then AI.DefaultGrokModel else model;
     AI.systemContent := systemMessage;
     AI.userContent := prompt;
     AI.max_tokens := if (maxTokens =? 0)%Z then AI.DefaultMaxTokens else maxTokens |}.

(** X10: [askGrok] returns a text with a nil error exactly when a key is set,
    the provider answers 200, and the value the decoder reads from the
    body (its first JSON value, whatever bytes follow it) is an object
    whose [choices[0].message.content] is that text. *)
Theorem askGrok_success_iff (c : AI.AIClient)
    (prompt systemMessage model : gostring) (maxTokens : Z) (content : gostring) :
  snd (AI.askGrok c prompt systemMessage model maxTokens) = Return (content, None)
  <->
  AI.xaiAPIKey c <> [] /\
  exists body fields rest choice message,
    AI.httpClient c (grokRequest c prompt systemMessage model maxTokens)
      = AI.Response 200 body (Some (AI.JObject fields)) /\
    AI.mapIndex fields (str "choices") = AI.JArray (AI.JObject choice :: rest) /\
    AI.mapIndex choice (str "message") = AI.JObject message /\
    AI.mapIndex message (str "content") = AI.JString content.
Proof.
  unfold AI.askGrok. fold (grokRequest c prompt systemMessage model maxTokens).
  split.
  - destruct (AI.xaiAPIKey c) as [|k key] eqn:K; cbn [isEmpty snd];
      [discriminate|].
    intros H. split; [discriminate|].
    destruct (AI.httpClient c _) as [|status body decoded]; [discriminate|].
    destruct (Z.eqb_spec status 200) as [->|]; cbn [negb] in H; [|discriminate].
    destruct decoded as [[| | | | |fields]|]; cbn [AI.decodeMap] in H;
      try discriminate.
    destruct (AI.mapIndex fields (str "choices"))
      as [| | | |[|[| | | | |choice] rest]|] eqn:E1; try discriminate.
    destruct (AI.mapIndex choice (str "message")) as [| | | | |message] eqn:E2;
      try discriminate.
    destruct (AI.mapIndex message (str "content")) as [| | |text| |] eqn:E3;
      try discriminate.
    injection H as <-. now exists body, fields, rest, choice, message.
  - intros (K & body & fields & rest & choice & message & E0 & E1 & E2 & E3).
    destruct (AI.xaiAPIKey c); [congruence|]. cbn [isEmpty snd].
    rewrite E0. cbn [Z.eqb negb AI.decodeMap]. simpl negb. cbv iota.
    rewrite E1, E2, E3. reflexivity.
Qed.

(** X11: [askGrok] panics exactly when a key is set, the provider answers
    200, and the value the decoder reads from the body (its first JSON
    value, whatever bytes follow it) is an object whose [choices] is a
    non-empty array, the first choice not being an object with an object
    under ["message"]. *)
Theorem askGrok_panic_iff (c : AI.AIClient)
    (prompt systemMessage model : gostring) (maxTokens : Z) :
  snd (AI.askGrok c prompt systemMessage model maxTokens) = Panic
  <->
  AI.xaiAPIKey c <> [] /\
  exists body fields rest choice0,
    AI.httpClient c (grokRequest c prompt systemMessage model maxTokens)
      = AI.Response 200 body (Some (AI.JObject fields)) /\
    AI.mapIndex fields (str "choices") = AI.JArray (choice0 :: rest) /\
    match choice0 with
    | AI.JObject choice =>
        match AI.mapIndex choice (str "message") with
        | AI.JObject _ => False
        | _ => True
        end
    | _ => True
    end.
Proof.
  unfold AI.askGrok. fold (grokRequest c prompt systemMessage model maxTokens).
  split.
  - destruct (AI.xaiAPIKey c) as [|k key] eqn:K; cbn [isEmpty snd];
      [discriminate|].
    intros H. split; [discriminate|].
    destruct (AI.httpClient c _) as [|status body decoded]; [discriminate|].
    destruct (Z.eqb_spec status 200) as [->|]; cbn [negb] in H; [|discriminate].
    destruct decoded as [[| | | | |fields]|]; cbn [AI.decodeMap] in H;
      try discriminate.
    destruct (AI.mapIndex fields (str "choices"))
      as [| | | |[|choice0 rest]|] eqn:E1; try discriminate.
    exists body, fields, rest, choice0. split; [reflexivity|split; [exact E1|]].
    destruct choice0 as [| | | | |choice]; try exact I.
    destruct (AI.mapIndex choice (str "message")); try exact I.
    destruct (AI.mapIndex _ (str "content")); discriminate.
  - intros (K & body & fields & rest & choice0 & E0 & E1 & H).
    destruct (AI.xaiAPIKey c); [congruence|]. cbn [isEmpty snd].
    rewrite E0. simpl negb. cbv iota. cbn [AI.decodeMap]. rewrite E1.
    destruct choice0 as [| | | | |choice]; try reflexivity.
    destruct (AI.mapIndex choice (str "message")); try reflexivity.
    contradiction.
Qed.

(** A body in which bytes follow the first JSON value: the decoder reads
    the value and leaves the rest, so the answer is that of the value
    alone, a text in the first case and a panic in the second. *)
Definition greeting : AI.JSON :=
  AI.JObject
    [(str "choices",
      AI.JArray
        [AI.JObject
           [(str "message", AI.JObject [(str "content", AI.JString (str "hi"))])]])].

Definition greetingText : gostring :=
  str "{" ++ AI.DQ ++ str "choices" ++ AI.DQ ++ str ":[{" ++ AI.DQ
  ++ str "message" ++ AI.DQ ++ str ":{" ++ AI.DQ ++ str "content" ++ AI.DQ
  ++ str ":" ++ AI.DQ ++ str "hi" ++ AI.DQ ++ str "}}]}".

Example askGrok_bytes_after_value :
  snd (AI.askGrok
         (SegmentationFacts.clientAnswering
            (AI.Response 200 (greetingText ++ str " and more") (Some greeting)))
         (str "q") [] [] 0)
  = Return (str "hi", None) /\
  snd (AI.askGrok
         (SegmentationFacts.clientAnswering
            (AI.Response 200
               (SegmentationFacts.choiceWithoutMessageText ++ str " and more")
               (Some SegmentationFacts.choiceWithoutMessage)))
         (str "q") [] [] 0)
  = Panic.
Proof. split; vm_compute; reflexivity. Qed.

(** X12: a client made by [NewAIClient] makes at most one request per
    [AskClient], and none without the key of the provider asked for:
    provider ["openai"] goes to OpenAI with the OpenAI key, every other
    provider string goes to Grok with the xAI key. *)
Theorem AskClient_calls
    (openaiService : gostring -> ChatCompletionRequest
                     -> gostring + list ChatCompletionChoice)
    (transport : AI.Request -> AI.HTTPResult)
    (openaiAPIKey xaiAPIKey prompt systemMessage model provider : gostring)
    (maxTokens : Z) :
  fst (AskClient (NewAIClient openaiService transport openaiAPIKey xaiAPIKey)
                 prompt systemMessage model provider maxTokens)
  = if streq provider ProviderOpenAI then
      if isEmpty openaiAPIKey then []
      else [OpenAICall openaiAPIKey
              {| Model := model; MaxTokens := maxTokens;
                 Messages := [(str "system", systemMessage); (str "user", prompt)] |}]
    else
      if isEmpty xaiAPIKey then []
      else [GrokCall (grokRequest {| AI.xaiAPIKey := xaiAPIKey;
                                     AI.httpClient := transport |}
                                  prompt systemMessage model maxTokens)].
Proof.
  unfold AskClient, NewAIClient. cbn [openaiClient grokClient].
  destruct (streq provider ProviderOpenAI).
  - destruct (isEmpty openaiAPIKey); cbn [negb]; [reflexivity|].
    unfold askOpenAI. cbn [openaiClient authToken fst]. reflexivity.
  - unfold AI.askGrok. cbn [AI.xaiAPIKey AI.httpClient].
    destruct (isEmpty xaiAPIKey); reflexivity.
Qed.

(** X13: [AskClient] never returns a text together with an error: when the
    error is not nil the text is empty. *)
Theorem AskClient_error_has_no_text (c : AIClient)
    (prompt systemMessage model provider : gostring) (maxTokens : Z) :
  match snd (AskClient c prompt systemMessage model provider maxTokens) with
  | Return (text, Some _) => text = []
  | _ => True
  end.
Proof.
  unfold AskClient. destruct (streq provider ProviderOpenAI).
  - destruct (openaiClient c) as [client|] eqn:E; [|reflexivity].
    unfold askOpenAI. rewrite E. cbn [snd].
    destruct (CreateChatCompletion client _) as [e|[|choice0 ?]];
      try reflexivity; exact I.
  - unfold AI.askGrok.
    destruct (isEmpty (AI.xaiAPIKey (grokClient c))); [reflexivity|]. cbn [snd].
    destruct (AI.httpClient _ _) as [|status body decoded]; [reflexivity|].
    destruct (negb (status =? 200)%Z); [reflexivity|].
    destruct (AI.decodeMap decoded) as [result|]; [|reflexivity].
    destruct (AI.mapIndex result (str "choices")) as [| | | |[|choice0 ?]|];
      try reflexivity.
    destruct choice0 as [| | | | |choice]; try exact I.
    destruct (AI.mapIndex choice (str "message")) as [| | | | |msg];
      try exact I.
    destruct (AI.mapIndex msg (str "content")); try reflexivity; exact I.
Qed.

End AIProvidersFacts.

(* ================================================================== *)
(** ** [internal/bot/formatting.go]: the earlier [sendLongResponse] *)
(* ================================================================== *)

Module BotV1.

Section Delivery.
Variable Gateway : Type.
Variable ChannelMessageSend :
  gostring -> gostring -> Gateway -> option gostring * Gateway.

(** The loop of the earlier [sendLongResponse], from index [i]; as for
    [splitLongChunk], [len(response)] turns are enough. *)
Fixpoint sendLoop (n : nat) (channelID response : gostring) (i : nat)
    (w : Bot.World Gateway) : Bot.World Gateway :=
  match n with
  | 0 => w
  | S n' =>
      if i <? len response then
        let end_ := i + Bot.MaxDiscordMessageLength in
        let end_ := if len response <? end_ then len response else end_ in
        let chunk := slice response i end_ in
        let (err, g) := ChannelMessageSend channelID chunk (Bot.gateway w) in
        let w := {| Bot.gateway := g;
                    Bot.events := Bot.events w
                                  ++ [Bot.ChannelMessageSendEv channelID chunk] |} in
        let w := match err with
                 | Some _ => Bot.emit [Bot.LogError (str "failed to send message chunk")] w
                 | None => w
                 end in
        sendLoop n' channelID response (i + Bot.MaxDiscordMessageLength) w
      else w
  end.

(** The earlier [sendLongResponse]: the response in slices of 2000. *)
Definition sendLongResponse (channelID response : gostring)
    (w : Bot.World Gateway) : Bot.World Gateway :=
  sendLoop (len response) channelID response 0 w.

End Delivery.

End BotV1.

Module BotV1Facts.
Import DeliveryFacts DeliveryInvariants.

Lemma splitLoop_acc (chunk : gostring) :
  forall n i acc,
    Bot.splitLoop n chunk i acc = acc ++ Bot.splitLoop n chunk i [].
Proof.
  induction n as [|n IH]; intros i acc; cbn [Bot.splitLoop].
  - now rewrite app_nil_r.
  - destruct (i <? len chunk); [|now rewrite app_nil_r].
    rewrite IH. rewrite (IH _ ([] ++ _)). now rewrite <- app_assoc.
Qed.

Section Sends.
Variable Gateway : Type.
Variable ChannelMessageSend :
  gostring -> gostring -> Gateway -> option gostring * Gateway.

Lemma sendLoop_sentContents (channelID response : gostring) :
  forall n i (w : Bot.World Gateway),
    sentContents (Bot.events (BotV1.sendLoop ChannelMessageSend n channelID response i w))
    = sentContents (Bot.events w) ++ Bot.splitLoop n response i [].
Proof.
  induction n as [|n IH]; intros i w; cbn [BotV1.sendLoop Bot.splitLoop].
  - now rewrite app_nil_r.
  - destruct (i <? len response); [|now rewrite app_nil_r].
    replace (if len response <? i + Bot.MaxDiscordMessageLength
             then len response else i + Bot.MaxDiscordMessageLength)
      with (Nat.min (i + Bot.MaxDiscordMessageLength) (len response))
      by (destruct (Nat.ltb_spec (len response) (i + Bot.MaxDiscordMessageLength));
          lia).
    set (chunk := slice response i _).
    destruct (ChannelMessageSend channelID chunk (Bot.gateway w)) as [[e|] g];
      rewrite IH; cbn [Bot.emit Bot.events Bot.gateway];
      rewrite ?sentContents_app; cbn [sentContents flat_map app];
      rewrite ?app_nil_r, <- app_assoc; f_equal;
      rewrite (splitLoop_acc response n _ ([] ++ [chunk])); reflexivity.
Qed.

(** X14: whatever the gateway answers, the earlier [sendLongResponse] sends
    [ceil(len / 2000)] messages, none for the empty response, each of at
    most 2000 bytes, and their concatenation is the response. *)
Theorem sendLongResponse_v1_lossless (channelID response : gostring)
    (w : Bot.World Gateway) :
  exists sent,
    sentContents
      (Bot.events (BotV1.sendLongResponse ChannelMessageSend channelID response w))
    = sentContents (Bot.events w) ++ sent /\
    concat sent = response /\
    length sent = (len response + 1999) / 2000 /\
    Forall (fun content => len content <= 2000) sent.
Proof.
  exists (Bot.splitLongChunk response). unfold BotV1.sendLongResponse.
  split; [apply sendLoop_sentContents|].
  split; [apply splitLongChunk_concat|].
  split; [|apply splitLongChunk_bounded].
  unfold Bot.splitLongChunk. rewrite splitLoop_length by lia.
  simpl length. now rewrite Nat.sub_0_r.
Qed.

(** X15: the two versions of [sendLongResponse] attempt the same messages on
    a non-empty response that segmentation leaves whole; on the empty
    response the earlier one sends nothing where the later one sends the
    empty string. *)
Theorem sendLongResponse_versions_agree
    (showTypingIndicator : gostring -> Bot.Duration -> Gateway -> Gateway)
    (channelID response : gostring) (w : Bot.World Gateway) :
  (response <> [] ->
   sentContents
     (Bot.events (BotV1.sendLongResponse ChannelMessageSend channelID response w))
   = sentContents
       (Bot.events
          (snd (Bot.sendLongResponse ChannelMessageSend showTypingIndicator
                  (fun m => Return ([m], None)) channelID response w)))) /\
  sentContents
    (Bot.events (BotV1.sendLongResponse ChannelMessageSend channelID [] w))
  = sentContents (Bot.events w) /\
  sentContents
    (Bot.events
       (snd (Bot.sendLongResponse ChannelMessageSend showTypingIndicator
               (fun m => Return ([m], None)) channelID [] w)))
  = sentContents (Bot.events w) ++ [[]].
Proof.
  split; [|split].
  - intros Hne. unfold BotV1.sendLongResponse, Bot.sendLongResponse. cbn [snd].
    rewrite sendLoop_sentContents, sendChunks_sentContents. f_equal.
    cbn [enforceLength flat_map]. rewrite app_nil_r.
    destruct (Bot.MaxDiscordMessageLength <? len response) eqn:E; [reflexivity|].
    apply Nat.ltb_ge in E. unfold Bot.MaxDiscordMessageLength in E.
    destruct response as [|b response]; [congruence|].
    cbn [len length Bot.splitLoop Nat.ltb Nat.leb].
    rewrite (@splitLoop_enough (b :: response) _ 0)
      by (unfold Bot.MaxDiscordMessageLength; simpl in *; lia).
    cbn [Bot.splitLoop app]. f_equal. unfold slice.
    change (skipn 0 (b :: response)) with (b :: response).
    replace (Nat.min (0 + Bot.MaxDiscordMessageLength)
                     (S (length response)) - 0)
      with (length (b :: response)); [apply firstn_all|].
    unfold Bot.MaxDiscordMessageLength, len in *. cbn [length] in *. lia.
  - cbn. now rewrite ?app_nil_r.
  - unfold Bot.sendLongResponse. cbn [snd]. apply sendChunks_sentContents.
Qed.

End Sends.

Lemma sendLongResponse_versions_agree_witness :
  sentContents
    (Bot.events (BotV1.sendLongResponse acceptAll (str "channel")
                   (Repeat (str "ab") 1500) startWorld))
  = sentContents
      (Bot.events
         (snd (Bot.sendLongResponse acceptAll idleTyping
                 (fun m => Return ([m], None)) (str "channel")
                 (Repeat (str "ab") 1500) startWorld))).
Proof.
  apply (@sendLongResponse_versions_agree unit acceptAll idleTyping
           (str "channel") (Repeat (str "ab") 1500) startWorld).
  vm_compute. discriminate.
Defined.

End BotV1Facts.

(* ================================================================== *)
(** ** The command helpers of the bot: [getTopActiveUsers] *)
(* ================================================================== *)

From Stdlib Require Import Permutation Sorted.

Module TopUsers.

(** [userCount] *)
Definition userCount : Type := (gostring * Z)%type.
Definition name (u : userCount) : gostring := fst u.
Definition count (u : userCount) : Z := snd u.

(** [a[i]] and [a[i] = x] on a slice, for [i < len(a)]. *)
Definition at_ (a : list userCount) (i : nat) : userCount :=
  nth i a ([], 0%Z).
Fixpoint setAt (a : list userCount) (i : nat) (x : userCount) : list userCount :=
  match a, i with
  | [], _ => []
  | _ :: t, 0 => x :: t
  | h :: t, S i' => h :: setAt t i' x
  end.

(** [counts[i], counts[j] = counts[j], counts[i]] *)
Definition swap (a : list userCount) (i j : nat) : list userCount :=
  setAt (setAt a i (at_ a j)) j (at_ a i).

(** The inner loop of the sort, at [i], from [j]. *)
Fixpoint innerLoop (n : nat) (counts : list userCount) (i j : nat)
    : list userCount :=
  match n with
  | 0 => counts
  | S n' =>
      if j <? length counts then
        innerLoop n'
          (if (count (at_ counts j) >? count (at_ counts i))%Z
           then swap counts i j else counts)
          i (S j)
      else counts
  end.

(** The outer loop of the sort, from [i]. *)
Fixpoint outerLoop (n : nat) (counts : list userCount) (i : nat)
    : list userCount :=
  match n with
  | 0 => counts
  | S n' =>
      if i <? length counts then
        outerLoop n' (innerLoop (length counts) counts i (S i)) (S i)
      else counts
  end.

Definition sortByCount (counts : list userCount) : list userCount :=
  outerLoop (length counts) counts 0.

(** The last loop: the names of the first [topN] entries. *)
Fixpoint takeLoop (n : nat) (counts : list userCount) (topN : Z) (i : nat)
    (activeUserNames : list gostring) : list gostring :=
  match n with
  | 0 => activeUserNames
  | S n' =>
      if (Z.of_nat i <? topN)%Z && (i <? length counts) then
        takeLoop n' counts topN (S i) (activeUserNames ++ [name (at_ counts i)])
      else activeUserNames
  end.

(** [getTopActiveUsers].  Ranging over a Go map visits its entries in an
    unspecified order; [ranged] is the entries of [userCounts] in the
    order the first loop meets them. *)
Definition getTopActiveUsers (ranged : list userCount) (topN : Z)
    : list gostring :=
  let counts := fold_left (fun counts u => counts ++ [(name u, count u)]) ranged [] in
  let counts := sortByCount counts in
  takeLoop (length counts) counts topN 0 [].

End TopUsers.

Module TopUsersFacts.
Import TopUsers.

Lemma length_setAt (a : list userCount) :
  forall i x, length (setAt a i x) = length a.
Proof.
  induction a as [|h t IH]; intros [|i] x; simpl; try reflexivity.
  now rewrite IH.
Qed.

Lemma at_setAt (a : list userCount) :
  forall i k x, i < length a ->
    at_ (setAt a i x) k = if k =? i then x else at_ a k.
Proof.
  unfold at_. induction a as [|h t IH]; intros [|i] [|k] x H; simpl in *;
    try lia; try reflexivity.
  apply IH. lia.
Qed.

Lemma length_swap (a : list userCount) (i j : nat) :
  length (swap a i j) = length a.
Proof. unfold swap. now rewrite !length_setAt. Qed.

Lemma at_swap (a : list userCount) (i j k : nat) :
  i < length a -> j < length a ->
  at_ (swap a i j) k
  = if k =? j then at_ a i else if k =? i then at_ a j else at_ a k.
Proof.
  intros Hi Hj. unfold swap.
  rewrite at_setAt by (now rewrite length_setAt).
  destruct (k =? j); [reflexivity|]. now apply at_setAt.
Qed.

Lemma Permutation_setAt (a : list userCount) :
  forall i x, i < length a ->
    Permutation (x :: a) (at_ a i :: setAt a i x).
Proof.
  unfold at_. induction a as [|h t IH]; intros [|i] x H; simpl in *; try lia.
  - apply perm_swap.
  - etransitivity; [apply perm_swap|].
    etransitivity; [apply perm_skip, (IH i x); lia|]. apply perm_swap.
Qed.

Lemma Permutation_swap (a : list userCount) (i j : nat) :
  i < length a -> j < length a -> i <> j -> Permutation (swap a i j) a.
Proof.
  intros Hi Hj Hne. unfold swap.
  pose proof (@Permutation_setAt a i (at_ a j) Hi) as P1.
  assert (Hj' : j < length (setAt a i (at_ a j))) by now rewrite length_setAt.
  pose proof (@Permutation_setAt _ j (at_ a i) Hj') as P2.
  rewrite at_setAt in P2 by exact Hi.
  destruct (Nat.eqb_spec j i); [congruence|].
  symmetry. eapply Permutation_cons_inv. etransitivity; [exact P1|exact P2].
Qed.

(** After position [i], everything up to [j] is no larger than what is
    at [i]; before it, every entry dominates all later ones. *)
Definition Settled (a : list userCount) (i : nat) : Prop :=
  forall p q, p < i -> p < q < length a ->
    (count (at_ a q) <= count (at_ a p))%Z.
Definition Leading (a : list userCount) (i j : nat) : Prop :=
  forall q, i < q < j -> (count (at_ a q) <= count (at_ a i))%Z.

Lemma innerLoop_spec :
  forall n a i j,
    i < j -> i < length a -> length a - j <= n ->
    Settled a i -> Leading a i j ->
    let b := innerLoop n a i j in
    Permutation b a /\ length b = length a /\ Settled b (S i).
Proof.
  induction n as [|n IH]; intros a i j Hij Hi Hn HS HL; cbn [innerLoop].
  - split; [reflexivity|split; [reflexivity|]].
    intros p q Hp Hq. destruct (Nat.eq_dec p i) as [->|];
      [apply HL; lia|apply HS; lia].
  - destruct (Nat.ltb_spec j (length a)) as [Hj|Hj].
    + destruct (Z.gtb_spec (count (at_ a j)) (count (at_ a i))) as [Hgt|Hle].
      * destruct (IH (swap a i j) i (S j)) as (P & L & S');
          rewrite ?length_swap; try lia.
        { intros p q Hp Hq. rewrite length_swap in Hq.
          rewrite !at_swap by lia.
          destruct (Nat.eqb_spec p j); [lia|].
          destruct (Nat.eqb_spec p i); [lia|].
          destruct (Nat.eqb_spec q j); [apply HS; lia|].
          destruct (Nat.eqb_spec q i); apply HS; lia. }
        { intros q Hq. rewrite !at_swap by lia.
          rewrite Nat.eqb_refl.
          destruct (Nat.eqb_spec i j); [lia|].
          destruct (Nat.eqb_spec q j); [lia|].
          destruct (Nat.eqb_spec q i); [lia|].
          specialize (HL q). lia. }
        rewrite length_swap in L. split; [|split; [exact L|exact S']].
        etransitivity; [exact P|]. apply Permutation_swap; lia.
      * apply IH; try lia; [exact HS|].
        intros q Hq. destruct (Nat.eq_dec q j) as [->|]; [lia|apply HL; lia].
    + split; [reflexivity|split; [reflexivity|]].
      intros p q Hp Hq. destruct (Nat.eq_dec p i) as [->|];
        [apply HL; lia|apply HS; lia].
Qed.

Lemma outerLoop_spec :
  forall n a i,
    length a - i <= n -> Settled a i ->
    let b := outerLoop n a i in
    Permutation b a /\ Settled b (length b).
Proof.
  induction n as [|n IH]; intros a i Hn HS; cbn [outerLoop].
  - split; [reflexivity|]. intros p q Hp Hq. apply HS; lia.
  - destruct (Nat.ltb_spec i (length a)) as [Hi|Hi].
    + destruct (@innerLoop_spec (length a) a i (S i)) as (P & L & S');
        try lia; [exact HS|intros q Hq; lia|].
      destruct (IH (innerLoop (length a) a i (S i)) (S i)) as (P' & S'');
        [lia|exact S'|].
      split; [etransitivity; [exact P'|exact P]|exact S''].
    + split; [reflexivity|]. intros p q Hp Hq. apply HS; lia.
Qed.

Lemma Settled_sorted (a : list userCount) :
  Settled a (length a) ->
  StronglySorted (fun u v => (count v <= count u)%Z) a.
Proof.
  induction a as [|h t IH]; intros H; constructor.
  - apply IH. intros p q Hp Hq. apply (H (S p) (S q)); simpl; lia.
  - apply Forall_forall. intros v Hin.
    destruct (In_nth t v ([], 0%Z) Hin) as (k & Hk & <-).
    apply (H 0 (S k)); simpl; lia.
Qed.

Lemma skipn_at (a : list userCount) :
  forall i, i < length a -> skipn i a = at_ a i :: skipn (S i) a.
Proof.
  unfold at_. induction a as [|h t IH]; intros [|i] Hi; simpl in *;
    try lia; [reflexivity|].
  apply IH. lia.
Qed.

Lemma takeLoop_spec (counts : list userCount) (topN : Z) :
  forall n i acc,
    length counts - i <= n ->
    takeLoop n counts topN i acc
    = acc ++ map name (firstn (Z.to_nat topN - i) (skipn i counts)).
Proof.
  induction n as [|n IH]; intros i acc Hn; cbn [takeLoop].
  - rewrite skipn_all2 by lia. rewrite firstn_nil. simpl. now rewrite app_nil_r.
  - destruct (Z.ltb_spec (Z.of_nat i) topN) as [Ht|Ht];
      destruct (Nat.ltb_spec i (length counts)) as [Hi|Hi]; cbn [andb].
    + rewrite IH by lia. rewrite <- app_assoc. f_equal.
      replace (Z.to_nat topN - i) with (S (Z.to_nat topN - S i)) by lia.
      rewrite (skipn_at counts Hi). reflexivity.
    + rewrite skipn_all2 by lia. rewrite firstn_nil. simpl. now rewrite app_nil_r.
    + replace (Z.to_nat topN - i) with 0 by lia. simpl. now rewrite app_nil_r.
    + replace (Z.to_nat topN - i) with 0 by lia. simpl. now rewrite app_nil_r.
Qed.

Lemma collect_entries (ranged : list userCount) :
  forall acc,
    fold_left (fun counts u => counts ++ [(name u, count u)]) ranged acc
    = acc ++ ranged.
Proof.
  induction ranged as [|[nm c] ranged IH]; intros acc; simpl.
  - now rewrite app_nil_r.
  - rewrite IH. now rewrite <- app_assoc.
Qed.

(** X16: [getTopActiveUsers] returns the names of the first [topN] entries of
    an arrangement of the map's entries by non-increasing count: as many
    names as there are entries when [topN] is larger, none when [topN]
    is zero or negative, whatever the order in which the map was
    ranged. *)
Theorem getTopActiveUsers_sorted (ranged : list userCount) (topN : Z) :
  exists sorted,
    Permutation sorted ranged /\
    StronglySorted (fun u v => (count v <= count u)%Z) sorted /\
    getTopActiveUsers ranged topN = map name (firstn (Z.to_nat topN) sorted) /\
    length (getTopActiveUsers ranged topN)
      = Nat.min (Z.to_nat topN) (length ranged).
Proof.
  unfold getTopActiveUsers. rewrite collect_entries. cbn [app].
  destruct (@outerLoop_spec (length ranged) ranged 0) as [P S];
    [lia|intros p q Hp; lia|].
  fold (sortByCount ranged) in P, S.
  exists (sortByCount ranged).
  assert (E : takeLoop (length (sortByCount ranged)) (sortByCount ranged) topN 0 []
              = map name (firstn (Z.to_nat topN) (sortByCount ranged))).
  { rewrite takeLoop_spec by lia. cbn [app skipn]. now rewrite Nat.sub_0_r. }
  split; [exact P|split; [now apply Settled_sorted|split; [exact E|]]].
  rewrite E, length_map, length_firstn. now rewrite (Permutation_length P).
Qed.

(** X17: no user [getTopActiveUsers] leaves out has a higher count than a
    user it returns. *)
Theorem getTopActiveUsers_top (ranged : list userCount) (topN : Z) :
  exists chosen others,
    Permutation (chosen ++ others) ranged /\
    getTopActiveUsers ranged topN = map name chosen /\
    forall u v, In u chosen -> In v others -> (count v <= count u)%Z.
Proof.
  unfold getTopActiveUsers. rewrite collect_entries. cbn [app].
  destruct (@outerLoop_spec (length ranged) ranged 0) as [P S];
    [lia|intros p q Hp; lia|].
  fold (sortByCount ranged) in P, S. apply Settled_sorted in S.
  exists (firstn (Z.to_nat topN) (sortByCount ranged)),
         (skipn (Z.to_nat topN) (sortByCount ranged)).
  split; [now rewrite firstn_skipn|split].
  - rewrite takeLoop_spec by lia. cbn [app skipn]. now rewrite Nat.sub_0_r.
  - rewrite <- (firstn_skipn (Z.to_nat topN) (sortByCount ranged)) in S.
    revert S. generalize (firstn (Z.to_nat topN) (sortByCount ranged)) as l1.
    generalize (skipn (Z.to_nat topN) (sortByCount ranged)) as l2.
    intros l2 l1. induction l1 as [|h t IH]; intros S u v Hu Hv; [destruct Hu|].
    simpl in S. inversion S as [|? ? St Hh]; subst.
    destruct Hu as [->|Hu]; [|now apply (IH St)].
    rewrite Forall_forall in Hh. apply Hh. apply in_or_app. now right.
Qed.

End TopUsersFacts.

(* ================================================================== *)
(** ** The command helpers of the bot: arguments and history *)
(* ================================================================== *)

Module BotHelpers.

(** *** [strings.ToLower] and [strconv.Atoi] *)

Definition isASCII (s : gostring) : bool :=
  forallb (fun b => nat_of_ascii b <? 128) s.

(** ['A'..'Z'] to ['a'..'z'], other bytes unchanged. *)
Definition lowerByte (b : ascii) : ascii :=
  let n := nat_of_ascii b in
  if (65 <=? n) && (n <=? 90) then ascii_of_nat (n + 32) else b.

(** A decimal digit. *)
Definition digitOf (b : ascii) : option Z :=
  let n := nat_of_ascii b in
  if (48 <=? n) && (n <=? 57) then Some (Z.of_nat (n - 48)) else None.

Fixpoint parseDigits (s : gostring) (acc : Z) : option Z :=
  match s with
  | [] => Some acc
  | b :: rest =>
      match digitOf b with
      | Some d => parseDigits rest (acc * 10 + d)
      | None => None
      end
  end.

(** [strconv.Atoi]: an optional sign and one or more decimal digits, the
    value within [int] (64 bits); [None] stands for a non-nil error. *)
Definition Atoi (s : gostring) : option Z :=
  match s with
  | [] => None
  | b :: rest =>
      let neg := Ascii.eqb b "-" in
      let digits := if Ascii.eqb b "-" || Ascii.eqb b "+" then rest else s in
      match digits with
      | [] => None
      | _ :: _ =>
          match parseDigits digits 0 with
          | None => None
          | Some n =>
              let v := (if neg then - n else n)%Z in
              if ((- 2 ^ 63 <=? v) && (v <? 2 ^ 63))%Z then Some v else None
          end
      end
  end.

(** The fields of [discordgo.User], [discordgo.Member] and
    [discordgo.Message] the helpers read. *)
Record User : Type := { ID : gostring; Username : gostring; Bot : bool }.
Record Member : Type := { Nick : gostring }.
Record Message : Type := {
  Author : User;
  GuildID : gostring;
  Content : gostring
}.

Definition DefaultUserOpinionDays : Z := 3.
Definition DefaultUserOpinionMaxMessages : Z := 200.

Section Helpers.
(** [strings.Map(unicode.ToLower, s)], which [strings.ToLower] applies to
    a string holding a byte outside ASCII, and [strings.Title]. *)
Variable mapUnicodeToLower : gostring -> gostring.
Variable Title : gostring -> gostring.
(** The session: [GuildMember] gives a member or an error ([None]);
    [ChannelMessages] gives the newest messages first, or an error. *)
Variable GuildMember : gostring -> gostring -> option Member.
Variable ChannelMessages : gostring -> Z -> gostring + list Message.

(** [strings.ToLower] *)
Definition ToLower (s : gostring) : gostring :=
  if isASCII s then map lowerByte s else mapUnicodeToLower s.

(** [extractProviderAndArgs] *)
Definition extractProviderAndArgs (args : list gostring)
    (defaultProvider : gostring) : gostring * list gostring :=
  match args with
  | [] => (defaultProvider, args)
  | first :: rest =>
      let lower := ToLower first in
      if streq lower (str "grok") || streq lower (str "openai")
      then (lower, rest)
      else (defaultProvider, args)
  end.

(** [providerDisplayName] *)
Definition providerDisplayName (provider : gostring) : gostring :=
  if streq provider (str "grok") then str "Grok"
  else if streq provider (str "openai") then str "OpenAI"
  else Title provider.

(** [parseUserOpinionArgs] *)
Definition parseUserOpinionArgs (args : list gostring) : gostring * Z * Z :=
  let argsWithoutMention :=
    fold_left (fun acc arg =>
                 if negb (HasPrefix arg (str "<@")) then acc ++ [arg] else acc)
              args [] in
  let (provider, remainingArgs) :=
    extractProviderAndArgs argsWithoutMention (str "openai") in
  let (days, remainingArgs) :=
    match remainingArgs with
    | a :: rest =>
        match Atoi a with
        | Some n => (n, rest)
        | None => (DefaultUserOpinionDays, remainingArgs)
        end
    | [] => (DefaultUserOpinionDays, remainingArgs)
    end in
  let maxMessages :=
    match remainingArgs with
    | a :: _ =>
        match Atoi a with
        | Some n => n
        | None => DefaultUserOpinionMaxMessages
        end
    | [] => DefaultUserOpinionMaxMessages
    end in
  (provider, days, maxMessages).

(** [getDisplayName] *)
Definition getDisplayName (msg : Message) : gostring :=
  let displayName := Username (Author msg) in
  if negb (isEmpty (GuildID msg)) then
    match GuildMember (GuildID msg) (ID (Author msg)) with
    | Some member =>
        if negb (isEmpty (Nick member)) then Nick member else displayName
    | None => displayName
    end
  else displayName.

Definition noMessage : Message :=
  {| Author := {| ID := []; Username := []; Bot := false |};
     GuildID := []; Content := [] |}.

(** The loop of [formatChannelHistory]: [i] runs from [n - 1] down
    to 0. *)
Fixpoint historyLoop (n : nat) (messages : list Message)
    (formatted : list gostring) : list gostring :=
  match n with
  | 0 => formatted
  | S i =>
      let msg := nth i messages noMessage in
      let displayName := getDisplayName msg in
      historyLoop i messages
        (formatted ++ [displayName ++ str ": " ++ Content msg])
  end.

(** [formatChannelHistory] *)
Definition formatChannelHistory (channelID : gostring) (numMessages : Z)
    : gostring * option AI.error :=
  match ChannelMessages channelID numMessages with
  | inl _ => ([], Some (AI.WrappedError (str "failed to fetch channel messages")))
  | inr messages =>
      (Join (historyLoop (length messages) messages []) [LF], None)
  end.

(** [userMessageCount[displayName]++] on a [map[string]int], the map as
    its entries, one per key. *)
Fixpoint increment (m : list (gostring * Z)) (key : gostring)
    : list (gostring * Z) :=
  match m with
  | [] => [(key, 1%Z)]
  | (k, v) :: rest =>
      if streq k key then (k, (v + 1)%Z) :: rest
      else (k, v) :: increment rest key
  end.

(** [m[key]]: zero for a key that is absent. *)
Fixpoint lookup (m : list (gostring * Z)) (key : gostring) : Z :=
  match m with
  | [] => 0%Z
  | (k, v) :: rest => if streq k key then v else lookup rest key
  end.

(** The loop of [fetchAndCountMessages]. *)
Fixpoint countLoop (n : nat) (guildID : gostring) (allMessages : list Message)
    (st : list gostring * list (gostring * Z))
    : list gostring * list (gostring * Z) :=
  match n with
  | 0 => st
  | S i =>
      let msg := nth i allMessages noMessage in
      if Bot (Author msg) then countLoop i guildID allMessages st
      else
        let displayName :=
          match GuildMember guildID (ID (Author msg)) with
          | Some member =>
              if negb (isEmpty (Nick member)) then Nick member
              else Username (Author msg)
          | None => Username (Author msg)
          end in
        countLoop i guildID allMessages
          (fst st ++ [displayName ++ str ": " ++ Content msg],
           increment (snd st) displayName)
  end.

(** [fetchAndCountMessages] *)
Definition fetchAndCountMessages (channelID guildID : gostring) (numMessages : Z)
    : list gostring * list (gostring * Z) * option AI.error :=
  match ChannelMessages channelID numMessages with
  | inl _ => ([], [], Some (AI.WrappedError (str "failed to fetch channel messages")))
  | inr allMessages =>
      let (messages, userMessageCount) :=
        countLoop (length allMessages) guildID allMessages ([], []) in
      (messages, userMessageCount, None)
  end.

End Helpers.

End BotHelpers.

Module BotHelpersFacts.
Import BotHelpers AIProvidersFacts.

(** *** History *)

Lemma firstn_snoc (A : Type) (d : A) (l : list A) :
  forall i, i < length l -> firstn (S i) l = firstn i l ++ [nth i l d].
Proof.
  induction l as [|h t IH]; intros [|i] H; simpl in *; try lia;
    [reflexivity|].
  f_equal. apply IH. lia.
Qed.

Lemma lookup_increment (m : list (gostring * Z)) (key k : gostring) :
  lookup (increment m key) k
  = (lookup m k + if streq key k then 1 else 0)%Z.
Proof.
  induction m as [|[k' v] m IH]; cbn [increment lookup].
  - destruct (streq key k); lia.
  - destruct (streq k' key) eqn:E; cbn [lookup].
    + apply streq_true in E. subst k'. destruct (streq key k); lia.
    + destruct (streq k' k) eqn:E'; [|exact IH].
      apply streq_true in E'. subst k'.
      destruct (streq key k) eqn:E''; [|lia].
      apply streq_true in E''. subst key.
      assert (streq k k = true) by now apply streq_true. congruence.
Qed.

Lemma increment_keys (m : list (gostring * Z)) (key : gostring) :
  NoDup (map fst m) ->
  NoDup (map fst (increment m key)) /\
  (forall k, In k (map fst (increment m key)) <-> k = key \/ In k (map fst m)).
Proof.
  induction m as [|[k' v] m IH]; cbn [increment map fst]; intros H.
  - split; [constructor; [intros []|constructor]|]. intros k. simpl.
    intuition congruence.
  - inversion H as [|? ? Hnin Hnd]; subst.
    destruct (streq k' key) eqn:E; cbn [map fst].
    + apply streq_true in E. subst k'. split; [exact H|].
      intros k. simpl. intuition congruence.
    + destruct (IH Hnd) as [IH1 IH2]. split.
      * constructor; [|exact IH1]. rewrite IH2. intros [->|Hin]; [|tauto].
        assert (streq key key = true) by now apply streq_true. congruence.
      * intros k. simpl. rewrite IH2. tauto.
Qed.

Lemma increment_positive (m : list (gostring * Z)) (key : gostring) :
  Forall (fun e => (1 <= snd e)%Z) m ->
  Forall (fun e => (1 <= snd e)%Z) (increment m key).
Proof.
  induction 1 as [|[k v] m Hv Hm IH]; cbn [increment].
  - constructor; [simpl; lia|constructor].
  - destruct (streq k key); constructor; simpl in *; try lia; assumption.
Qed.

Lemma lowerByte_ascii (b : ascii) :
  (nat_of_ascii (lowerByte b) <? 128) = true -> (nat_of_ascii b <? 128) = true.
Proof.
  unfold lowerByte.
  destruct ((65 <=? nat_of_ascii b) && (nat_of_ascii b <=? 90)) eqn:E;
    [|trivial].
  intros _. apply andb_prop in E as [_ E]. apply Nat.leb_le in E.
  apply Nat.ltb_lt. lia.
Qed.

Lemma isASCII_lower (s : gostring) :
  isASCII (map lowerByte s) = true -> isASCII s = true.
Proof.
  unfold isASCII. induction s as [|b s IH]; [trivial|]. cbn [map forallb].
  intros H. apply andb_prop in H as [Hb Hs].
  now rewrite (lowerByte_ascii b Hb), IH.
Qed.

Lemma keep_non_mentions (args : list gostring) :
  forall acc,
    fold_left (fun acc arg =>
                 if negb (HasPrefix arg (str "<@")) then acc ++ [arg] else acc)
              args acc
    = acc ++ filter (fun arg => negb (HasPrefix arg (str "<@"))) args.
Proof.
  induction args as [|a args IH]; intros acc; cbn [fold_left filter].
  - now rewrite app_nil_r.
  - rewrite IH. destruct (negb (HasPrefix a (str "<@"))); [|reflexivity].
    now rewrite <- app_assoc.
Qed.

Lemma parseDigits_ascii (s : gostring) :
  forall acc n, parseDigits s acc = Some n -> isASCII s = true.
Proof.
  unfold isASCII. induction s as [|b s IH]; intros acc n; [trivial|].
  cbn [parseDigits forallb]. unfold digitOf.
  destruct ((48 <=? nat_of_ascii b) && (nat_of_ascii b <=? 57)) eqn:E;
    [|discriminate].
  intros H. apply andb_prop in E as [_ E]. apply Nat.leb_le in E.
  rewrite (IH _ _ H). replace (nat_of_ascii b <? 128) with true; [reflexivity|].
  symmetry. apply Nat.ltb_lt. lia.
Qed.

(** A string [Atoi] accepts begins with a sign or a digit and is ASCII. *)
Lemma Atoi_shape (s : gostring) (n : Z) :
  Atoi s = Some n ->
  isASCII s = true /\
  exists b rest, s = b :: rest /\
    (b = "-"%char \/ b = "+"%char \/
     (48 <= nat_of_ascii b /\ nat_of_ascii b <= 57)).
Proof.
  destruct s as [|b rest]; [discriminate|]. cbn [Atoi].
  destruct (Ascii.eqb b "-") eqn:Em; cbn [orb].
  - apply Ascii.eqb_eq in Em. subst b.
    destruct rest as [|c rest]; [discriminate|].
    destruct (parseDigits (c :: rest) 0) as [v|] eqn:P; [|discriminate].
    intros _. split; [|exists "-"%char, (c :: rest); auto].
    pose proof (parseDigits_ascii _ _ P) as A.
    unfold isASCII in *. cbn [forallb] in *. exact A.
  - destruct (Ascii.eqb b "+") eqn:Ep.
    + apply Ascii.eqb_eq in Ep. subst b.
      destruct rest as [|c rest]; [discriminate|].
      destruct (parseDigits (c :: rest) 0) as [v|] eqn:P; [|discriminate].
      intros _. split; [|exists "+"%char, (c :: rest); auto].
      pose proof (parseDigits_ascii _ _ P) as A.
      unfold isASCII in *. cbn [forallb] in *. exact A.
    + destruct (parseDigits (b :: rest) 0) as [v|] eqn:P; [|discriminate].
      intros _. split; [exact (parseDigits_ascii _ _ P)|].
      exists b, rest. split; [reflexivity|right; right].
      cbn [parseDigits] in P. unfold digitOf in P.
      destruct ((48 <=? nat_of_ascii b) && (nat_of_ascii b <=? 57)) eqn:E;
        [|discriminate].
      apply andb_prop in E as [E1 E2].
      apply Nat.leb_le in E1. apply Nat.leb_le in E2. lia.
Qed.

Section WithGuild.
Variable GuildMember : gostring -> gostring -> option Member.

(** The line of the history for a message. *)
Definition historyLine (msg : Message) : gostring :=
  getDisplayName GuildMember msg ++ str ": " ++ Content msg.

Lemma historyLoop_spec (messages : list Message) :
  forall n formatted,
    n <= length messages ->
    historyLoop GuildMember n messages formatted
    = formatted ++ map historyLine (rev (firstn n messages)).
Proof.
  induction n as [|n IH]; intros formatted Hn; cbn [historyLoop].
  - simpl. now rewrite app_nil_r.
  - rewrite IH by lia. rewrite (firstn_snoc noMessage) by lia.
    rewrite rev_app_distr. cbn [rev app map].
    now rewrite <- app_assoc.
Qed.

(** X18: the display name is the member's nick only for a message in a guild
    whose author has a non-empty nick there; otherwise it is the
    username, so it is never empty for a user with a username. *)
Theorem getDisplayName_cases (msg : Message) :
  (getDisplayName GuildMember msg = Username (Author msg) \/
   GuildID msg <> [] /\
   exists member,
     GuildMember (GuildID msg) (ID (Author msg)) = Some member /\
     Nick member <> [] /\
     getDisplayName GuildMember msg = Nick member) /\
  (Username (Author msg) <> [] -> getDisplayName GuildMember msg <> []).
Proof.
  unfold getDisplayName.
  destruct (GuildID msg) as [|g gs] eqn:G; cbn [isEmpty negb];
    [split; [now left|trivial]|].
  destruct (GuildMember (g :: gs) (ID (Author msg))) as [member|] eqn:M;
    [|split; [now left|trivial]].
  destruct (Nick member) as [|n ns] eqn:N; cbn [isEmpty negb];
    [split; [now left|trivial]|].
  split; [|discriminate]. right. split; [discriminate|].
  exists member. rewrite N. repeat split; discriminate.
Qed.

(** *** Counting *)

(** The display name [fetchAndCountMessages] uses, looked up in the
    guild of the command. *)
Definition countedName (guildID : gostring) (msg : Message) : gostring :=
  match GuildMember guildID (ID (Author msg)) with
  | Some member =>
      if negb (isEmpty (Nick member)) then Nick member
      else Username (Author msg)
  | None => Username (Author msg)
  end.

Definition byHuman (msg : Message) : bool := negb (Bot (Author msg)).

(** The state of the counting loop agrees with the messages processed. *)
Definition Counted (guildID : gostring) (processed : list Message)
    (st : list gostring * list (gostring * Z)) : Prop :=
  fst st = map (fun msg => countedName guildID msg ++ str ": " ++ Content msg)
               (filter byHuman processed) /\
  NoDup (map fst (snd st)) /\
  Forall (fun e => (1 <= snd e)%Z) (snd st) /\
  (forall k, lookup (snd st) k
             = Z.of_nat (length (filter (fun msg => byHuman msg
                                            && streq (countedName guildID msg) k)
                                        processed))) /\
  (forall k, In k (map fst (snd st)) <->
             In k (map (countedName guildID) (filter byHuman processed))).

Lemma countLoop_spec (guildID : gostring) (allMessages : list Message) :
  forall n st processed,
    n <= length allMessages ->
    Counted guildID processed st ->
    Counted guildID (processed ++ rev (firstn n allMessages))
            (countLoop GuildMember n guildID allMessages st).
Proof.
  induction n as [|n IH]; intros st processed Hn H; cbn [countLoop].
  - simpl. now rewrite app_nil_r.
  - rewrite (firstn_snoc noMessage) by lia. rewrite rev_app_distr.
    cbn [rev app]. set (msg := nth n allMessages noMessage).
    replace (processed ++ msg :: rev (firstn n allMessages))
      with ((processed ++ [msg]) ++ rev (firstn n allMessages))
      by now rewrite <- app_assoc.
    destruct H as (H1 & H2 & H3 & H4 & H5).
    assert (Hb : byHuman msg = negb (Bot (Author msg))) by reflexivity.
    destruct (Bot (Author msg)) eqn:B; cbn [negb] in Hb; apply IH; try lia.
    + unfold Counted.
      assert (E1 : filter byHuman (processed ++ [msg]) = filter byHuman processed)
        by (rewrite filter_app; cbn [filter]; rewrite Hb; apply app_nil_r).
      rewrite E1. split; [exact H1|split; [exact H2|split; [exact H3|]]].
      split; [|exact H5].
      intros k. rewrite H4, filter_app. cbn [filter]. rewrite Hb.
      cbn [andb]. now rewrite app_nil_r.
    + fold (countedName guildID msg). unfold Counted. cbn [fst snd].
      assert (E1 : filter byHuman (processed ++ [msg])
                   = filter byHuman processed ++ [msg])
        by (rewrite filter_app; cbn [filter]; now rewrite Hb).
      rewrite E1.
      destruct (@increment_keys (snd st) (countedName guildID msg) H2)
        as [K1 K2].
      split; [rewrite map_app, H1; reflexivity|].
      split; [exact K1|]. split; [now apply increment_positive|]. split.
      * intros k. rewrite lookup_increment, H4, filter_app, length_app.
        cbn [filter]. rewrite Hb. cbn [andb].
        destruct (streq (countedName guildID msg) k); simpl length; lia.
      * intros k. rewrite K2, H5, map_app, in_app_iff. simpl.
        intuition congruence.
Qed.

Section WithChannel.
Variable ChannelMessages : gostring -> Z -> gostring + list Message.

(** X19: [formatChannelHistory] lists the messages oldest first, one line per
    message, the reverse of the order in which the gateway returned
    them; when the fetch fails it returns an error and no text. *)
Theorem formatChannelHistory_oldest_first (channelID : gostring)
    (numMessages : Z) :
  match ChannelMessages channelID numMessages with
  | inl _ =>
      exists e, formatChannelHistory GuildMember ChannelMessages
                  channelID numMessages = ([], Some e)
  | inr messages =>
      formatChannelHistory GuildMember ChannelMessages channelID numMessages
      = (Join (map historyLine (rev messages)) [LF], None)
  end.
Proof.
  unfold formatChannelHistory.
  destruct (ChannelMessages channelID numMessages) as [e|messages];
    [eexists; reflexivity|].
  rewrite historyLoop_spec by lia. cbn [app]. now rewrite firstn_all.
Qed.

(** X20: [fetchAndCountMessages] skips the messages of bots, lists the others
    oldest first, and counts them by display name: the map has one entry
    per display name met, each count is the number of lines under that
    name and is at least 1. *)
Theorem fetchAndCountMessages_counts (channelID guildID : gostring)
    (numMessages : Z) :
  match ChannelMessages channelID numMessages with
  | inl _ =>
      exists e, fetchAndCountMessages GuildMember ChannelMessages
                  channelID guildID numMessages = ([], [], Some e)
  | inr allMessages =>
      exists messages userMessageCount,
        fetchAndCountMessages GuildMember ChannelMessages
          channelID guildID numMessages
        = (messages, userMessageCount, None) /\
        messages
        = map (fun msg => countedName guildID msg ++ str ": " ++ Content msg)
              (filter byHuman (rev allMessages)) /\
        NoDup (map fst userMessageCount) /\
        Forall (fun e => (1 <= snd e)%Z) userMessageCount /\
        (forall k,
           lookup userMessageCount k
           = Z.of_nat (length (filter (fun msg => byHuman msg
                                          && streq (countedName guildID msg) k)
                                      (rev allMessages)))) /\
        (forall k, In k (map fst userMessageCount) <->
                   In k (map (countedName guildID)
                             (filter byHuman (rev allMessages))))
  end.
Proof.
  unfold fetchAndCountMessages.
  destruct (ChannelMessages channelID numMessages) as [e|allMessages];
    [eexists; reflexivity|].
  assert (H : Counted guildID ([] ++ rev (firstn (length allMessages) allMessages))
                (countLoop GuildMember (length allMessages) guildID allMessages
                           ([], []))).
  { apply countLoop_spec; [lia|].
    repeat split; simpl; try constructor; tauto. }
  rewrite firstn_all in H. cbn [app] in H.
  destruct (countLoop _ _ _ _ _) as [messages userMessageCount].
  exists messages, userMessageCount. split; [reflexivity|exact H].
Qed.

End WithChannel.

End WithGuild.

(** *** Arguments *)

Section Arguments.
Variable mapUnicodeToLower : gostring -> gostring.



(** X21: the provider keyword is recognised in any capitalisation of its
    ASCII letters, and taken off the arguments. *)
Theorem extractProviderAndArgs_case_insensitive
    (cased : gostring) (rest : list gostring) (defaultProvider : gostring) :
  map lowerByte cased = str "grok" \/ map lowerByte cased = str "openai" ->
  extractProviderAndArgs mapUnicodeToLower (cased :: rest) defaultProvider
  = (map lowerByte cased, rest).
Proof.
  intros H. unfold extractProviderAndArgs, ToLower.
  assert (A : isASCII cased = true)
    by (apply isASCII_lower; destruct H as [-> | ->]; reflexivity).
  rewrite A. destruct H as [-> | ->]; reflexivity.
Qed.

(** [parseUserOpinionArgs] on the arguments that are not mentions. *)
Definition parseWithoutMentions (args : list gostring) : gostring * Z * Z :=
  let (provider, remainingArgs) :=
    extractProviderAndArgs mapUnicodeToLower args (str "openai") in
  let (days, remainingArgs) :=
    match remainingArgs with
    | a :: rest =>
        match Atoi a with
        | Some n => (n, rest)
        | None => (DefaultUserOpinionDays, remainingArgs)
        end
    | [] => (DefaultUserOpinionDays, remainingArgs)
    end in
  let maxMessages :=
    match remainingArgs with
    | a :: _ =>
        match Atoi a with
        | Some n => n
        | None => DefaultUserOpinionMaxMessages
        end
    | [] => DefaultUserOpinionMaxMessages
    end in
  (provider, days, maxMessages).

Lemma parseUserOpinionArgs_filter (args : list gostring) :
  parseUserOpinionArgs mapUnicodeToLower args
  = parseWithoutMentions
      (filter (fun arg => negb (HasPrefix arg (str "<@"))) args).
Proof.
  unfold parseUserOpinionArgs, parseWithoutMentions.
  now rewrite keep_non_mentions.
Qed.

(** X22: the provider [parseUserOpinionArgs] returns is ["grok"] or
    ["openai"], whatever the arguments. *)
Theorem parseUserOpinionArgs_provider (args : list gostring) :
  fst (fst (parseUserOpinionArgs mapUnicodeToLower args)) = str "grok" \/
  fst (fst (parseUserOpinionArgs mapUnicodeToLower args)) = str "openai".
Proof.
  rewrite parseUserOpinionArgs_filter. unfold parseWithoutMentions.
  generalize (filter (fun arg => negb (HasPrefix arg (str "<@"))) args) as l.
  intros l. unfold extractProviderAndArgs.
  destruct l as [|first rest]; [right; reflexivity|].
  destruct (streq (ToLower mapUnicodeToLower first) (str "grok")) eqn:E1;
    cbn [orb].
  - apply streq_true in E1. rewrite E1.
    destruct rest as [|a rest]; [left; reflexivity|].
    destruct (Atoi a); [destruct rest as [|b ?]; [|destruct (Atoi b)]|];
      left; reflexivity.
  - destruct (streq (ToLower mapUnicodeToLower first) (str "openai")) eqn:E2.
    + apply streq_true in E2. rewrite E2.
      destruct rest as [|a rest]; [right; reflexivity|].
      destruct (Atoi a); [destruct rest as [|b ?]; [|destruct (Atoi b)]|];
        right; reflexivity.
    + destruct (Atoi first); [destruct rest as [|b ?]; [|destruct (Atoi b)]|];
        right; reflexivity.
Qed.

(** X23: a mention may stand anywhere among the arguments: it is ignored. *)
Theorem parseUserOpinionArgs_ignores_mentions
    (before after : list gostring) (mention : gostring) :
  HasPrefix mention (str "<@") = true ->
  parseUserOpinionArgs mapUnicodeToLower (before ++ mention :: after)
  = parseUserOpinionArgs mapUnicodeToLower (before ++ after).
Proof.
  intros H. rewrite !parseUserOpinionArgs_filter, !filter_app.
  cbn [filter]. now rewrite H.
Qed.

(** A number is neither a mention nor a provider keyword. *)
Lemma Atoi_plain (s : gostring) (n : Z) (rest : list gostring) (d : gostring) :
  Atoi s = Some n ->
  HasPrefix s (str "<@") = false /\
  extractProviderAndArgs mapUnicodeToLower (s :: rest) d = (d, s :: rest).
Proof.
  intros H. destruct (Atoi_shape _ H) as (A & b & r & -> & Hb).
  assert (Hn : nat_of_ascii b = 45 \/ nat_of_ascii b = 43 \/
               (48 <= nat_of_ascii b /\ nat_of_ascii b <= 57)).
  { destruct Hb as [->|[->|Hb]]; [left; reflexivity|right; left; reflexivity|].
    right; right; exact Hb. }
  assert (Hl : lowerByte b = b).
  { unfold lowerByte.
    destruct (Nat.leb_spec 65 (nat_of_ascii b)); cbn [andb]; [|reflexivity].
    destruct (Nat.leb_spec (nat_of_ascii b) 90); [lia|reflexivity]. }
  assert (Hneq : forall c : ascii, nat_of_ascii c > 57 -> Ascii.eqb b c = false).
  { intros c Hc. apply Ascii.eqb_neq. intros ->. lia. }
  split.
  - cbn [HasPrefix str list_ascii_of_string].
    rewrite (Hneq "<"%char)
      by (change (nat_of_ascii "<"%char) with 60; lia).
    reflexivity.
  - unfold extractProviderAndArgs, ToLower. rewrite A. cbn [map]. rewrite Hl.
    unfold streq.
    destruct (list_eq_dec ascii_dec (b :: map lowerByte r) (str "grok"))
      as [E|_].
    { injection E as E _. subst b.
      change (nat_of_ascii "g"%char) with 103 in Hn. lia. }
    destruct (list_eq_dec ascii_dec (b :: map lowerByte r) (str "openai"))
      as [E|_]; [|reflexivity].
    injection E as E _. subst b.
    change (nat_of_ascii "o"%char) with 111 in Hn. lia.
Qed.

(** X24: two numbers after the mention are the days and the message limit,
    with the default provider. *)
Theorem parseUserOpinionArgs_numbers (a b : gostring) (rest : list gostring)
    (days maxMessages : Z) :
  Atoi a = Some days -> Atoi b = Some maxMessages ->
  parseUserOpinionArgs mapUnicodeToLower (a :: b :: rest)
  = (str "openai", days, maxMessages).
Proof.
  intros Ha Hb. rewrite parseUserOpinionArgs_filter. cbn [filter].
  destruct (@Atoi_plain a days [] []) as [Ma _]; [exact Ha|].
  destruct (@Atoi_plain b maxMessages [] []) as [Mb _]; [exact Hb|].
  rewrite Ma, Mb. cbn [negb]. unfold parseWithoutMentions.
  destruct (@Atoi_plain a days
              (b :: filter (fun arg => negb (HasPrefix arg (str "<@"))) rest)
              (str "openai") Ha) as [_ E].
  rewrite E, Ha, Hb. reflexivity.
Qed.

(** X25: a word that is not a number in the place of the days leaves both
    the days and the message limit at their defaults, whatever follows
    it. *)
Theorem parseUserOpinionArgs_blocked (a : gostring) (rest : list gostring) :
  Atoi a = None -> HasPrefix a (str "<@") = false ->
  parseUserOpinionArgs mapUnicodeToLower (str "grok" :: a :: rest)
  = (str "grok", DefaultUserOpinionDays, DefaultUserOpinionMaxMessages).
Proof.
  intros Ha Hm. rewrite parseUserOpinionArgs_filter. cbn [filter].
  change (HasPrefix (str "grok") (str "<@")) with false. rewrite Hm.
  cbn [negb]. unfold parseWithoutMentions, extractProviderAndArgs, ToLower.
  change (isASCII (str "grok")) with true. cbv iota.
  change (map lowerByte (str "grok")) with (str "grok").
  replace (streq (str "grok") (str "grok")) with true
    by (symmetry; now apply streq_true).
  cbn [orb]. cbv iota. rewrite Ha. cbv iota. rewrite Ha. reflexivity.
Qed.

End Arguments.

Lemma extractProviderAndArgs_case_insensitive_witness :
  extractProviderAndArgs (fun s => s) [str "GrOk"; str "what"; str "is"; str "this"]
                         (str "openai")
  = (map lowerByte (str "GrOk"), [str "what"; str "is"; str "this"]).
Proof.
  apply (@extractProviderAndArgs_case_insensitive (fun s => s) (str "GrOk")
           [str "what"; str "is"; str "this"] (str "openai")).
  left. reflexivity.
Defined.

Lemma parseUserOpinionArgs_ignores_mentions_witness :
  parseUserOpinionArgs (fun s => s)
    ([str "grok"] ++ str "<@123456>" :: [str "10"; str "500"])
  = parseUserOpinionArgs (fun s => s) ([str "grok"] ++ [str "10"; str "500"]).
Proof.
  apply (@parseUserOpinionArgs_ignores_mentions (fun s => s)
           [str "grok"] [str "10"; str "500"] (str "<@123456>")).
  reflexivity.
Defined.

Lemma parseUserOpinionArgs_numbers_witness :
  parseUserOpinionArgs (fun s => s) [str "-7"; str "+0500"; str "<@123456>"]
  = (str "openai", (-7)%Z, 500%Z).
Proof.
  apply (@parseUserOpinionArgs_numbers (fun s => s) (str "-7") (str "+0500")
           [str "<@123456>"] (-7)%Z 500%Z); reflexivity.
Defined.

Lemma parseUserOpinionArgs_blocked_witness :
  parseUserOpinionArgs (fun s => s) [str "grok"; str "week"; str "7"; str "500"]
  = (str "grok", DefaultUserOpinionDays, DefaultUserOpinionMaxMessages).
Proof.
  apply (@parseUserOpinionArgs_blocked (fun s => s) (str "week")
           [str "7"; str "500"]); reflexivity.
Defined.

End BotHelpersFacts.

(* ================================================================== *)
(** ** The [!most] ranking and the [!ask] command *)
(* ================================================================== *)

Module Handlers.
Import BotHelpers.

Definition DefaultGrokModelVersion : gostring := str "2024-11-17".
Definition DefaultOpenAIModelVersion : gostring := str "2024-05-13".

(** [getModelVersion] *)
Definition getModelVersion (provider model : gostring) : gostring :=
  if streq provider (str "grok") && streq model AI.DefaultGrokModel
  then DefaultGrokModelVersion
  else if streq provider (str "openai") && streq model AIProviders.DefaultOpenAIModel
  then DefaultOpenAIModelVersion
  else [].

Section Commands.
Variable Gateway : Type.
Variable ChannelMessageSend :
  gostring -> gostring -> Gateway -> option gostring * Gateway.
Variable showTypingIndicator : gostring -> Bot.Duration -> Gateway -> Gateway.
(** The [ai.Client] interface. *)
Variable AskClient :
  gostring -> gostring -> gostring -> gostring -> Z
  -> Go (gostring * option AI.error).
Variable SuggestMessageBreaks :
  gostring -> Go (list gostring * option AI.error).
(** The [Error] method of an error. *)
Variable errorText : AI.error -> gostring.
Variable mapUnicodeToLower : gostring -> gostring.
Variable Title : gostring -> gostring.
(** The persona texts. *)
Variable GrokPersona : gostring.
Variable OpenAIPersona : gostring.

(** [s.ChannelMessageSend(channelID, content)], its results dropped. *)
Definition sendIgnoringResult (channelID content : gostring)
    (w : Bot.World Gateway) : Bot.World Gateway :=
  let (_, g) := ChannelMessageSend channelID content (Bot.gateway w) in
  {| Bot.gateway := g;
     Bot.events := Bot.events w ++ [Bot.ChannelMessageSendEv channelID content] |}.

(** [sendThinkingMessage] *)
Definition sendThinkingMessage (channelID provider model : gostring)
    (w : Bot.World Gateway) : Bot.World Gateway :=
  let providerName := providerDisplayName Title provider in
  let version := getModelVersion provider model in
  let modelLabel := model in
  let message := str "Thinking with " ++ modelLabel
                 ++ str " - knowledge cutoff " ++ version ++ str " ..." in
  let w := Bot.emit [Bot.LogInfo (str "sending thinking message")] w in
  sendIgnoringResult channelID message w.

(** [handleAsk], for a command received in [channelID]. *)
Definition handleAsk (channelID : gostring) (args : list gostring)
    (w : Bot.World Gateway) : Go unit * Bot.World Gateway :=
  match args with
  | [] =>
      (Return tt,
       sendIgnoringResult channelID (str "Usage: !ask [grok|openai] <question>") w)
  | _ :: _ =>
      let (provider, args) :=
        extractProviderAndArgs mapUnicodeToLower args AIProviders.DefaultProvider in
      let prompt := Join args (str " ") in
      let (model, persona) :=
        if streq provider AIProviders.ProviderOpenAI
        then (AIProviders.DefaultOpenAIModel, OpenAIPersona)
        else (AI.DefaultGrokModel, GrokPersona) in
      let w := sendThinkingMessage channelID provider model w in
      match AskClient prompt persona model provider AI.DefaultMaxTokens with
      | Panic => (Panic, w)
      | Return (response, Some err) =>
          let w := Bot.emit [Bot.LogError (str "AI request failed")] w in
          (Return tt,
           sendIgnoringResult channelID (str "Error: " ++ errorText err) w)
      | Return (response, None) =>
          Bot.sendLongResponse ChannelMessageSend showTypingIndicator
            SuggestMessageBreaks channelID response w
      end
  end.

End Commands.

End Handlers.

Module HandlersFacts.
Import BotHelpers BotHelpersFacts TopUsers TopUsersFacts Handlers.
Import DeliveryFacts AIProvidersFacts.

Lemma NoDup_firstn (A : Type) (l : list A) :
  forall n, NoDup l -> NoDup (firstn n l).
Proof.
  induction l as [|h t IH]; intros [|n] H; simpl; try constructor.
  - inversion H as [|? ? Hnin Hnd]; subst. intros Hin. apply Hnin.
    revert Hin. clear. revert n. induction t as [|x t IH]; intros [|n]; simpl;
      try tauto. intros [->|Hin]; [now left|right; now apply (IH n)].
  - apply IH. now inversion H.
Qed.

Lemma In_firstn (A : Type) (x : A) (l : list A) :
  forall n, In x (firstn n l) -> In x l.
Proof.
  induction l as [|h t IH]; intros [|n]; simpl; try tauto.
  intros [->|Hin]; [now left|right; now apply (IH n)].
Qed.

(** The ranking in terms of the sorted entries. *)
Lemma getTopActiveUsers_firstn (ranged : list userCount) (topN : Z) :
  exists sorted,
    Permutation sorted ranged /\
    getTopActiveUsers ranged topN = map name (firstn (Z.to_nat topN) sorted).
Proof.
  unfold getTopActiveUsers. rewrite collect_entries. cbn [app].
  destruct (@outerLoop_spec (length ranged) ranged 0) as [P _];
    [lia|intros p q Hp; lia|].
  fold (sortByCount ranged) in P. exists (sortByCount ranged).
  split; [exact P|].
  rewrite takeLoop_spec by lia. cbn [app skipn]. now rewrite Nat.sub_0_r.
Qed.

(** X26: ranking the map that [fetchAndCountMessages] returns, in whatever
    order the map is ranged: no name comes twice, and every name is the
    display name of the author of a fetched message that is not from a
    bot. *)
Theorem most_active_are_counted_authors
    (GuildMember : gostring -> gostring -> option Member)
    (ChannelMessages : gostring -> Z -> gostring + list Message)
    (channelID guildID : gostring) (numMessages topN : Z) :
  match ChannelMessages channelID numMessages with
  | inl _ => True
  | inr allMessages =>
      forall ranged,
        Permutation ranged
          (snd (fst (fetchAndCountMessages GuildMember ChannelMessages
                       channelID guildID numMessages))) ->
        NoDup (getTopActiveUsers ranged topN) /\
        forall nm, In nm (getTopActiveUsers ranged topN) ->
          exists msg, In msg allMessages /\ Bot (Author msg) = false /\
                      countedName GuildMember guildID msg = nm
  end.
Proof.
  unfold fetchAndCountMessages.
  destruct (ChannelMessages channelID numMessages) as [e|allMessages];
    [exact I|].
  assert (H : Counted GuildMember guildID
                ([] ++ rev (firstn (length allMessages) allMessages))
                (countLoop GuildMember (length allMessages) guildID allMessages
                           ([], []))).
  { apply countLoop_spec; [lia|].
    repeat split; simpl; try constructor; tauto. }
  rewrite firstn_all in H. cbn [app] in H.
  destruct (countLoop _ _ _ _ _) as [messages userMessageCount].
  cbn [fst snd]. destruct H as (_ & Hnd & _ & _ & Hkeys). cbn [snd] in *.
  intros ranged P.
  destruct (getTopActiveUsers_firstn ranged topN) as (sorted & Ps & E).
  rewrite E. clear E.
  assert (Pk : Permutation (map name sorted) (map fst userMessageCount)).
  { apply Permutation_map. etransitivity; [exact Ps|exact P]. }
  rewrite <- firstn_map. split.
  - apply NoDup_firstn. eapply Permutation_NoDup; [symmetry; exact Pk|exact Hnd].
  - intros nm Hin. apply In_firstn in Hin.
    apply (Permutation_in _ Pk) in Hin. apply Hkeys in Hin.
    apply in_map_iff in Hin as (msg & <- & Hin).
    apply filter_In in Hin as [Hin Hb]. apply in_rev in Hin.
    exists msg. split; [exact Hin|split; [|reflexivity]].
    unfold byHuman in Hb. now destruct (Bot (Author msg)).
Qed.

Section CommandsFacts.
Variable Gateway : Type.
Variable ChannelMessageSend :
  gostring -> gostring -> Gateway -> option gostring * Gateway.
Variable showTypingIndicator : gostring -> Bot.Duration -> Gateway -> Gateway.
Variable AskClient :
  gostring -> gostring -> gostring -> gostring -> Z
  -> Go (gostring * option AI.error).
Variable SuggestMessageBreaks :
  gostring -> Go (list gostring * option AI.error).
Variable errorText : AI.error -> gostring.
Variable mapUnicodeToLower : gostring -> gostring.
Variable Title : gostring -> gostring.
Variable GrokPersona : gostring.
Variable OpenAIPersona : gostring.

Let handleAsk :=
  Handlers.handleAsk ChannelMessageSend showTypingIndicator AskClient
    SuggestMessageBreaks errorText mapUnicodeToLower Title
    GrokPersona OpenAIPersona.

Lemma sendIgnoringResult_sent (channelID content : gostring)
    (w : Bot.World Gateway) :
  sentContents (Bot.events (sendIgnoringResult ChannelMessageSend channelID content w))
  = sentContents (Bot.events w) ++ [content].
Proof.
  unfold sendIgnoringResult.
  destruct (ChannelMessageSend channelID content (Bot.gateway w)) as [r g].
  cbn [Bot.events]. now rewrite sentContents_app.
Qed.

(** X27: what [!ask] sends.  Without arguments: the usage line and nothing
    else.  Otherwise the model, the persona and the announcement follow
    the provider, which is ["grok"] unless the first argument spells
    ["openai"]; the provider keyword is not part of the prompt; an error
    of the client is reported in one message and no reply is sent; a
    reply is delivered piece by piece. *)
Theorem handleAsk_messages (channelID : gostring) (args : list gostring)
    (w : Bot.World Gateway) :
  match args with
  | [] =>
      sentContents (Bot.events (snd (handleAsk channelID args w)))
      = sentContents (Bot.events w)
        ++ [str "Usage: !ask [grok|openai] <question>"]
  | _ :: _ =>
      exists provider question model persona announcement,
        extractProviderAndArgs mapUnicodeToLower args (str "grok")
          = (provider, question) /\
        (provider = str "openai" /\ model = str "gpt-4o" /\
         persona = OpenAIPersona /\
         announcement
           = str "Thinking with gpt-4o - knowledge cutoff 2024-05-13 ..."
         \/
         provider = str "grok" /\ model = str "grok-3" /\
         persona = GrokPersona /\
         announcement
           = str "Thinking with grok-3 - knowledge cutoff 2024-11-17 ...") /\
        sentContents (Bot.events (snd (handleAsk channelID args w)))
        = sentContents (Bot.events w) ++ announcement
          :: match AskClient (Join question (str " ")) persona model provider 200 with
             | Panic => []
             | Return (_, Some err) => [str "Error: " ++ errorText err]
             | Return (response, None) =>
                 match SuggestMessageBreaks response with
                 | Panic => []
                 | Return (chunks, None) => enforceLength chunks
                 | Return (_, Some _) =>
                     enforceLength (Bot.fallbackChunking response)
                 end
             end
  end.
Proof.
  destruct args as [|first rest].
  { unfold handleAsk, Handlers.handleAsk. cbn [snd].
    apply sendIgnoringResult_sent. }
  assert (Tail : forall provider question model persona announcement,
    getModelVersion provider model <> [] ->
    announcement = str "Thinking with " ++ model ++ str " - knowledge cutoff "
                   ++ getModelVersion provider model ++ str " ..." ->
    sentContents
      (Bot.events
         (snd (let w := sendThinkingMessage ChannelMessageSend Title channelID
                          provider model w in
               match AskClient (Join question (str " ")) persona model provider
                               AI.DefaultMaxTokens with
               | Panic => (Panic, w)
               | Return (response, Some err) =>
                   let w := Bot.emit [Bot.LogError (str "AI request failed")] w in
                   (Return tt,
                    sendIgnoringResult ChannelMessageSend channelID
                      (str "Error: " ++ errorText err) w)
               | Return (response, None) =>
                   Bot.sendLongResponse ChannelMessageSend showTypingIndicator
                     SuggestMessageBreaks channelID response w
               end)))
    = sentContents (Bot.events w) ++ announcement
      :: match AskClient (Join question (str " ")) persona model provider 200 with
         | Panic => []
         | Return (_, Some err) => [str "Error: " ++ errorText err]
         | Return (response, None) =>
             match SuggestMessageBreaks response with
             | Panic => []
             | Return (chunks, None) => enforceLength chunks
             | Return (_, Some _) => enforceLength (Bot.fallbackChunking response)
             end
         end).
  { intros provider question model persona announcement _ ->.
    cbv zeta. change AI.DefaultMaxTokens with 200%Z.
    assert (T : sentContents
                  (Bot.events (sendThinkingMessage ChannelMessageSend Title
                                 channelID provider model w))
                = sentContents (Bot.events w)
                  ++ [str "Thinking with " ++ model ++ str " - knowledge cutoff "
                      ++ getModelVersion provider model ++ str " ..."]).
    { unfold sendThinkingMessage. rewrite sendIgnoringResult_sent.
      cbn [Bot.emit Bot.events]. rewrite sentContents_app. cbn.
      now rewrite app_nil_r. }
    set (w1 := sendThinkingMessage ChannelMessageSend Title channelID
                 provider model w) in *.
    destruct (AskClient (Join question (str " ")) persona model provider 200)
      as [[response [err|]]|]; cbn [snd].
    - rewrite sendIgnoringResult_sent. cbn [Bot.emit Bot.events].
      rewrite sentContents_app, T. cbn. rewrite app_nil_r.
      now rewrite <- app_assoc.
    - unfold Bot.sendLongResponse.
      destruct (SuggestMessageBreaks response) as [[chunks [e|]]|]; cbn [snd].
      + rewrite sendChunks_sentContents. cbn [Bot.emit Bot.events].
        rewrite sentContents_app, T. cbn. rewrite app_nil_r.
        now rewrite <- app_assoc.
      + rewrite sendChunks_sentContents, T. now rewrite <- app_assoc.
      + exact T.
    - exact T. }
  unfold handleAsk, Handlers.handleAsk.
  change AIProviders.DefaultProvider with (str "grok").
  destruct (extractProviderAndArgs mapUnicodeToLower (first :: rest) (str "grok"))
    as [provider question] eqn:E.
  assert (P : provider = str "grok" \/ provider = str "openai").
  { unfold extractProviderAndArgs in E.
    destruct (streq (ToLower mapUnicodeToLower first) (str "grok")) eqn:E1;
      cbn [orb] in E.
    - apply streq_true in E1. injection E as <- _. now left.
    - destruct (streq (ToLower mapUnicodeToLower first) (str "openai")) eqn:E2.
      + apply streq_true in E2. injection E as <- _. now right.
      + injection E as <- _. now left. }
  destruct P as [-> | ->].
  - exists (str "grok"), question, (str "grok-3"), GrokPersona,
      (str "Thinking with grok-3 - knowledge cutoff 2024-11-17 ...").
    split; [reflexivity|split; [right; repeat split; reflexivity|]].
    change (streq (str "grok") AIProviders.ProviderOpenAI) with false.
    cbv iota. apply Tail; [discriminate|reflexivity].
  - exists (str "openai"), question, (str "gpt-4o"), OpenAIPersona,
      (str "Thinking with gpt-4o - knowledge cutoff 2024-05-13 ...").
    split; [reflexivity|split; [left; repeat split; reflexivity|]].
    change (streq (str "openai") AIProviders.ProviderOpenAI) with true.
    cbv iota. apply Tail; [discriminate|reflexivity].
Qed.

End CommandsFacts.

End HandlersFacts.
